(** * HeadTrack 3D Window: the head-pose-to-projection pipeline of [main.js]

    The development embeds the two numeric functions of [src/main.js],
    [estimateViewerPosition] (lines 129-166) and [updateCameraProjection]
    (lines 294-325), together with the part of [animate] that chains them.

    JavaScript numbers are IEEE-754 binary64 values.  The program is written
    once, over an interface [JSNumber] of the operations it uses, and read at
    two instances:

    - [jsreal], exact arithmetic on the reals extended with [Infinity],
      [-Infinity] and [NaN] as ECMAScript produces them (division by zero,
      [Infinity * 0], ...).  Rounding, overflow and the sign of zero are
      not part of this reading; the theorems are stated here, for
      landmarks and positions whose coordinates are numbers;
    - [float], Rocq's primitive binary64 numbers, which run the program
      bit for bit as a JavaScript engine does, on concrete inputs. *)

From Stdlib Require Import Reals Lra Lia List ZArith QArith Qreals Bool.
From Stdlib Require Import Floats.PrimFloat Numbers.Cyclic.Int63.Uint63.
From Stdlib Require String Ascii Floats.FloatOps.
Import ListNotations.
Import String.StringSyntax.
Delimit Scope string_scope with string.

(** ** The number interface *)

Class JSNumber (T : Type) : Type := {
  lit : Q -> T;                 (* a numeric literal or an integer property *)
  num_add : T -> T -> T;
  num_sub : T -> T -> T;
  num_mul : T -> T -> T;
  num_div : T -> T -> T;
  num_neg : T -> T;             (* unary minus *)
  Math_sqrt : T -> T;
  Math_max : T -> T -> T;
  Math_min : T -> T -> T
}.

Declare Scope js_scope.
Delimit Scope js_scope with js.
Infix "+" := num_add : js_scope.
Infix "-" := num_sub : js_scope.
Infix "*" := num_mul : js_scope.
Infix "/" := num_div : js_scope.
Notation "- a" := (num_neg a) : js_scope.

(** ** Exact reading: extended reals *)

Inductive jsreal : Type :=
  | Fin (r : R)
  | PInf
  | NInf
  | NaN.

Module ExactNumber.

Inductive sign : Type := Negative | Null | Positive.

Definition sign_of (r : R) : sign :=
  if Rlt_dec 0 r then Positive
  else if Rlt_dec r 0 then Negative else Null.

Definition flip (s : sign) : sign :=
  match s with Negative => Positive | Null => Null | Positive => Negative end.

(* An infinity carrying the given sign; a null sign gives NaN, which is
   what [Infinity * 0] and [0 / 0] evaluate to. *)
Definition inf_of (s : sign) : jsreal :=
  match s with Positive => PInf | Negative => NInf | Null => NaN end.

Definition neg (a : jsreal) : jsreal :=
  match a with
  | Fin r => Fin (- r)
  | PInf => NInf
  | NInf => PInf
  | NaN => NaN
  end.

Definition add (a b : jsreal) : jsreal :=
  match a, b with
  | NaN, _ | _, NaN => NaN
  | Fin r, Fin s => Fin (r + s)
  | PInf, NInf | NInf, PInf => NaN
  | PInf, _ | _, PInf => PInf
  | NInf, _ | _, NInf => NInf
  end.

Definition sub (a b : jsreal) : jsreal := add a (neg b).

Definition mul (a b : jsreal) : jsreal :=
  match a, b with
  | NaN, _ | _, NaN => NaN
  | Fin r, Fin s => Fin (r * s)
  | PInf, Fin r | Fin r, PInf => inf_of (sign_of r)
  | NInf, Fin r | Fin r, NInf => inf_of (flip (sign_of r))
  | PInf, PInf | NInf, NInf => PInf
  | PInf, NInf | NInf, PInf => NInf
  end.

(* Zero is the positive zero: [r / 0] is [Infinity] for [r > 0]. *)
Definition div (a b : jsreal) : jsreal :=
  match a, b with
  | NaN, _ | _, NaN => NaN
  | Fin r, Fin s =>
      match sign_of s with
      | Null => inf_of (sign_of r)
      | _ => Fin (r / s)
      end
  | Fin _, (PInf | NInf) => Fin 0
  | PInf, Fin s =>
      match sign_of s with Negative => NInf | _ => PInf end
  | NInf, Fin s =>
      match sign_of s with Negative => PInf | _ => NInf end
  | (PInf | NInf), (PInf | NInf) => NaN
  end.

Definition sqrt (a : jsreal) : jsreal :=
  match a with
  | Fin r => if Rlt_dec r 0 then NaN else Fin (R_sqrt.sqrt r)
  | PInf => PInf
  | NInf | NaN => NaN
  end.

Definition max (a b : jsreal) : jsreal :=
  match a, b with
  | NaN, _ | _, NaN => NaN
  | PInf, _ | _, PInf => PInf
  | NInf, c | c, NInf => c
  | Fin r, Fin s => Fin (Rmax r s)
  end.

Definition min (a b : jsreal) : jsreal :=
  match a, b with
  | NaN, _ | _, NaN => NaN
  | NInf, _ | _, NInf => NInf
  | PInf, c | c, PInf => c
  | Fin r, Fin s => Fin (Rmin r s)
  end.

End ExactNumber.

#[export] Instance exact_number : JSNumber jsreal := {
  lit q := Fin (Q2R q);
  num_add := ExactNumber.add;
  num_sub := ExactNumber.sub;
  num_mul := ExactNumber.mul;
  num_div := ExactNumber.div;
  num_neg := ExactNumber.neg;
  Math_sqrt := ExactNumber.sqrt;
  Math_max := ExactNumber.max;
  Math_min := ExactNumber.min
}.

(** ** Binary64 reading: primitive floats *)

Module Binary64.

Definition of_Z (n : Z) : float :=
  match n with
  | Z0 => PrimFloat.zero
  | Zpos _ => PrimFloat.of_uint63 (Uint63.of_Z n)
  | Zneg p => PrimFloat.opp (PrimFloat.of_uint63 (Uint63.of_Z (Zpos p)))
  end.

(* The literals of the program have a numerator and a denominator that are
   both exact doubles, so the correctly rounded quotient is the double the
   literal denotes. *)
Definition of_Q (q : Q) : float :=
  PrimFloat.div (of_Z (Qnum q)) (of_Z (Zpos (Qden q))).

(* Math.max and Math.min: NaN when an argument is NaN, and +0 above -0. *)
Definition max (a b : float) : float :=
  if PrimFloat.is_nan a || PrimFloat.is_nan b then PrimFloat.nan
  else if PrimFloat.ltb a b then b
  else if PrimFloat.ltb b a then a
  else if PrimFloat.get_sign a then b else a.

Definition min (a b : float) : float :=
  if PrimFloat.is_nan a || PrimFloat.is_nan b then PrimFloat.nan
  else if PrimFloat.ltb a b then a
  else if PrimFloat.ltb b a then b
  else if PrimFloat.get_sign a then a else b.

End Binary64.

#[export] Instance binary64_number : JSNumber float := {
  lit := Binary64.of_Q;
  num_add := PrimFloat.add;
  num_sub := PrimFloat.sub;
  num_mul := PrimFloat.mul;
  num_div := PrimFloat.div;
  num_neg := PrimFloat.opp;
  Math_sqrt := PrimFloat.sqrt;
  Math_max := Binary64.max;
  Math_min := Binary64.min
}.

(** ** Data model *)

(* The objects with fields [x], [y], [z]: a MediaPipe landmark (normalized
   image coordinates) and the viewer position (meters). *)
Record Point (T : Type) : Type := { x : T; y : T; z : T }.
Arguments x {T} _.
Arguments y {T} _.
Arguments z {T} _.

(* The six arguments [updateCameraProjection] hands to [makePerspective]. *)
Record Frustum (T : Type) : Type := {
  left : T; right : T; top : T; bottom : T; near : T; far : T
}.
Arguments left {T} _.
Arguments right {T} _.
Arguments top {T} _.
Arguments bottom {T} _.
Arguments near {T} _.
Arguments far {T} _.

(* What [updateCameraProjection] writes to the camera. *)
Record Camera (T : Type) : Type := {
  projection : Frustum T;
  position : Point T;
  lookAt : Point T
}.
Arguments projection {T} _.
Arguments position {T} _.
Arguments lookAt {T} _.

(* A call either returns or throws: reading [.x] of [undefined] is a
   TypeError. *)
Inductive completion (A : Type) : Type :=
  | Returned (a : A)
  | TypeError.
Arguments Returned {A} a.
Arguments TypeError {A}.

(** ** The program *)

Section Pipeline.

Context {T : Type} `{JSNumber T}.
Local Open Scope js_scope.

Definition IPD_MM : T := lit 63.
Definition SCREEN_WIDTH_M : T := lit 0.28.
Definition SCREEN_HEIGHT_M : T := lit 0.16.

Definition LEFT_EYE_INDEX : nat := 33.
Definition RIGHT_EYE_INDEX : nat := 263.

(* let viewerPosition = { x: 0, y: 0, z: 0.5 } *)
Definition viewerPosition0 : Point T :=
  {| x := lit 0; y := lit 0; z := lit 0.5 |}.

(* The locals of estimateViewerPosition, lines 139-157.  [videoWidth] is
   [video.videoWidth], an unsigned long. *)
Definition ipdPixels (leftEye rightEye : Point T) : T :=
  let dx := x rightEye - x leftEye in
  let dy := y rightEye - y leftEye in
  Math_sqrt (dx * dx + dy * dy).

Definition ipdRatio (leftEye rightEye : Point T) (videoWidth : N) : T :=
  ipdPixels leftEye rightEye * lit (inject_Z (Z.of_N videoWidth))
  / (IPD_MM / lit 1000).

Definition estimatedZ (leftEye rightEye : Point T) (videoWidth : N) : T :=
  Math_max (lit 0.2)
    (Math_min (lit 2.0) (SCREEN_WIDTH_M / ipdRatio leftEye rightEye videoWidth)).

Definition centerX (leftEye rightEye : Point T) : T :=
  (x leftEye + x rightEye) / lit 2.

Definition centerY (leftEye rightEye : Point T) : T :=
  (y leftEye + y rightEye) / lit 2.

(* The raw position of the frame: [x], [y] of lines 156-157 and
   [estimatedZ]. *)
Definition rawPosition (leftEye rightEye : Point T) (videoWidth : N)
  : Point T :=
  let eZ := estimatedZ leftEye rightEye videoWidth in
  {| x := (centerX leftEye rightEye - lit 0.5) * SCREEN_WIDTH_M
          * (eZ / lit 0.5);
     y := (lit 0.5 - centerY leftEye rightEye) * SCREEN_HEIGHT_M
          * (eZ / lit 0.5);
     z := eZ |}.

Definition smoothing : T := lit 0.7.

(* Lines 161-163, for one coordinate. *)
Definition smooth (previous raw : T) : T :=
  previous * smoothing + raw * (lit 1 - smoothing).

(* [landmarks] is [None] for null.  The global [viewerPosition] is passed
   in and the updated object is passed out; the value the function returns
   is that same object.  [video] is not null where landmarks exist:
   detectFaceLandmarks answers null without a video. *)
Definition estimateViewerPosition (videoWidth : N)
    (landmarks : option (list (Point T))) (viewerPosition : Point T)
  : completion (Point T) :=
  match landmarks with
  | None => Returned viewerPosition
  | Some l =>
      if (length l <? 478)%nat then Returned viewerPosition
      else
        match nth_error l LEFT_EYE_INDEX, nth_error l RIGHT_EYE_INDEX with
        | Some leftEye, Some rightEye =>
            let raw := rawPosition leftEye rightEye videoWidth in
            Returned {| x := smooth (x viewerPosition) (x raw);
                        y := smooth (y viewerPosition) (y raw);
                        z := smooth (z viewerPosition) (z raw) |}
        | _, _ => TypeError
        end
  end.

(* Lines 294-325.  [aspect] is computed and not used.  The projection
   matrix is three.js's makePerspective of the six numbers, the camera is
   moved to the viewer and keeps looking at the screen centre. *)
Definition updateCameraProjection (viewerPos : Point T) : Camera T :=
  let near := lit 0.01 in
  let far := lit 10 in
  let halfWidth := SCREEN_WIDTH_M / lit 2 in
  let halfHeight := SCREEN_HEIGHT_M / lit 2 in
  let distance := z viewerPos in
  let left := (- halfWidth - x viewerPos) * near / distance in
  let right := (halfWidth - x viewerPos) * near / distance in
  let bottom := (- halfHeight - y viewerPos) * near / distance in
  let top := (halfHeight - y viewerPos) * near / distance in
  {| projection := {| left := left; right := right; top := top;
                      bottom := bottom; near := near; far := far |};
     position := {| x := x viewerPos; y := y viewerPos; z := z viewerPos |};
     lookAt := {| x := lit 0; y := lit 0; z := lit 0 |} |}.

(* One pass of [animate] while detecting: the detector's answer for the
   frame ([None] when no face was found) and the width of the video.  The
   pass yields the viewer position and, when a face was found, the camera
   update. *)
Definition animate (frame : N * option (list (Point T)))
    (viewerPosition : Point T)
  : completion (Point T * option (Camera T)) :=
  match snd frame with
  | Some landmarks =>
      match estimateViewerPosition (fst frame) (Some landmarks)
              viewerPosition with
      | Returned newPosition =>
          Returned (newPosition, Some (updateCameraProjection newPosition))
      | TypeError => TypeError
      end
  | None => Returned (viewerPosition, None)
  end.

(* The passes over a sequence of frames, from a given viewer position;
   the cameras are listed latest first. *)
Fixpoint run (frames : list (N * option (list (Point T))))
    (viewerPosition : Point T) (cameras : list (Camera T))
  : completion (Point T * list (Camera T)) :=
  match frames with
  | [] => Returned (viewerPosition, cameras)
  | frame :: rest =>
      match animate frame viewerPosition with
      | Returned (p, Some c) => run rest p (c :: cameras)
      | Returned (p, None) => run rest p cameras
      | TypeError => TypeError
      end
  end.

End Pipeline.

(** ** Frames and values of the exact reading *)

(* A landmark frame with the two eye landmarks at their indices and 478
   landmarks in all. *)
Definition face {T : Type} (filler leftEye rightEye : Point T)
  : list (Point T) :=
  repeat filler 33 ++ leftEye :: repeat filler 229
    ++ rightEye :: repeat filler 214.

(* Points and frames whose coordinates are numbers. *)
Definition pt (a b c : R) : Point jsreal :=
  {| x := Fin a; y := Fin b; z := Fin c |}.

Definition landmark (p : R * R * R) : Point jsreal :=
  pt (fst (fst p)) (snd (fst p)) (snd p).

Definition frame_of (pts : list (R * R * R)) : list (Point jsreal) :=
  map landmark pts.

Definition detection_of (d : N * option (list (R * R * R)))
  : N * option (list (Point jsreal)) :=
  (fst d, option_map frame_of (snd d)).

(* The planar distance between the eye landmarks. *)
Definition eye_distance (leftEye rightEye : R * R * R) : R :=
  let dx := (fst (fst rightEye) - fst (fst leftEye))%R in
  let dy := (snd (fst rightEye) - snd (fst leftEye))%R in
  R_sqrt.sqrt (dx * dx + dy * dy).

(* The depth estimate as a function of the eye distance: the quotient
   screen width / (distance * width / IPD), clamped; a null denominator
   makes the quotient [Infinity] and the estimate the upper bound. *)
Definition depth_of (d : R) (videoWidth : N) : R :=
  let ratio := (d * IZR (Z.of_N videoWidth) / (63 / 1000))%R in
  if Rlt_dec 0 ratio
  then Rmax (2 / 10) (Rmin 2 (28 / 100 / ratio))
  else 2%R.

(* The screen corner [corner] seen from [eye]: the point of the line from
   the eye to the corner at parameter [t] (0 at the eye, 1 on the screen). *)
Definition along (eye corner : R * R * R) (t : R) : R * R * R :=
  let '(ex, ey, ez) := eye in
  let '(cx, cy, cz) := corner in
  (ex + t * (cx - ex), ey + t * (cy - ey), ez + t * (cz - ez))%R.

(* Viewer positions the pipeline keeps to: numbers, the depth within the
   clamp bounds. *)
Definition in_range (p : Point jsreal) : Prop :=
  exists a b c : R, p = pt a b c /\ (2 / 10 <= c <= 2)%R.

(* A camera update without Infinity or NaN, placed in front of the screen
   at a depth within the clamp bounds. *)
Definition well_formed (c : Camera jsreal) : Prop :=
  exists l r t b ez : R,
    left (projection c) = Fin l /\ right (projection c) = Fin r /\
    top (projection c) = Fin t /\ bottom (projection c) = Fin b /\
    z (position c) = Fin ez /\ (2 / 10 <= ez <= 2)%R.

(* End-to-end scenario 2: eyes at (0.45, 0.5) and (0.55, 0.5). *)
Definition scenario2 {T : Type} `{JSNumber T} : list (Point T) :=
  face {| x := lit 0; y := lit 0; z := lit 0 |}
       {| x := lit 0.45; y := lit 0.5; z := lit 0 |}
       {| x := lit 0.55; y := lit 0.5; z := lit 0 |}.

(* Both eye landmarks at the centre of the image. *)
Definition coincident {T : Type} `{JSNumber T} : Point T :=
  {| x := lit 0.5; y := lit 0.5; z := lit 0 |}.

(* Landmarks given by their image coordinates. *)
Definition origin {T : Type} `{JSNumber T} : Point T :=
  {| x := lit 0; y := lit 0; z := lit 0 |}.

Definition eye_at {T : Type} `{JSNumber T} (qx qy : Q) : Point T :=
  {| x := lit qx; y := lit qy; z := lit 0 |}.


(* A landmark inside the image: normalized coordinates. *)
Definition normalized (p : R * R * R) : Prop :=
  (0 <= fst (fst p) <= 1)%R /\ (0 <= snd (fst p) <= 1)%R.

(* Viewer positions within reach of normalized landmarks: at most 0.56 to
   either side, 0.32 up or down, the depth within the clamp bounds. *)
Definition within_reach (p : Point jsreal) : Prop :=
  exists a b c : R,
    p = pt a b c /\ (- (56 / 100) <= a <= 56 / 100)%R /\
    (- (32 / 100) <= b <= 32 / 100)%R /\ (2 / 10 <= c <= 2)%R.

(* Every landmark of every detected frame lies inside the image. *)
Definition all_normalized (frames : list (N * option (list (R * R * R))))
  : Prop :=
  Forall (fun frame => match snd frame with
                       | Some pts => Forall normalized pts
                       | None => True
                       end) frames.

(** ** The frame loop: detector, status line and rendering *)

(* Strict equality [===] of two numbers: false when either is NaN. *)
Class JSStrictEq (T : Type) : Type := {
  strict_equal : T -> T -> bool
}.

#[export] Instance exact_strict_eq : JSStrictEq jsreal := {
  strict_equal a b :=
    match a, b with
    | Fin r, Fin s => if Req_dec_T r s then true else false
    | PInf, PInf | NInf, NInf => true
    | _, _ => false
    end
}.

#[export] Instance binary64_strict_eq : JSStrictEq float := {
  strict_equal := PrimFloat.eqb
}.

(* String.prototype.includes, on the bytes of the text.  The needle the
   program searches for is ASCII, so bytes and UTF-16 units agree. *)
Fixpoint includes (text needle : String.string) : bool :=
  if String.prefix needle text then true
  else
    match text with
    | String.EmptyString => false
    | String.String _ rest => includes rest needle
    end.

(* The video element as a pass of the loop sees it. *)
Record Video (T : Type) : Type := {
  readyState : nat;
  currentTime : T;
  videoWidth : N
}.
Arguments readyState {T} _.
Arguments currentTime {T} _.
Arguments videoWidth {T} _.

(* What a pass finds outside the program: the video element ([None] for
   null) and [results.faceLandmarks] as [detectForVideo] would answer for
   the frame ([None] for undefined). *)
Record Tick (T : Type) : Type := {
  video : option (Video T);
  faceLandmarks : option (list (list (Point T)))
}.
Arguments video {T} _.
Arguments faceLandmarks {T} _.

(* The globals of the program and what it has done to its collaborators:
   [faceLandmarker] is false for null, [status] is the text of the #status
   element ([None] when the page has none), [console] the [Status] lines
   logged (latest first), [detections] the calls of [detectForVideo],
   [camera] the last write of [updateCameraProjection], [rendered] the calls
   of [renderer.render]. *)
Record App (T : Type) : Type := {
  faceLandmarker : bool;
  lastVideoTime : T;
  isDetecting : bool;
  viewerPosition : Point T;
  camera : option (Camera T);
  status : option String.string;
  console : list String.string;
  detections : nat;
  rendered : nat
}.
Arguments faceLandmarker {T} _.
Arguments lastVideoTime {T} _.
Arguments isDetecting {T} _.
Arguments viewerPosition {T} _.
Arguments camera {T} _.
Arguments status {T} _.
Arguments console {T} _.
Arguments detections {T} _.
Arguments rendered {T} _.

(* A pass of the loop ends normally or with an uncaught TypeError; the
   globals keep what was written before the throw. *)
Inductive pass (A : Type) : Type :=
  | Completed (a : A)
  | Threw (a : A).
Arguments Completed {A} a.
Arguments Threw {A} a.

Definition after {A : Type} (r : pass A) : A :=
  match r with Completed a | Threw a => a end.

Section Loop.

Context {T : Type} `{JSNumber T} `{JSStrictEq T}.

(* The globals as the declarations of lines 35-47 leave them, on a page
   whose status line reads [text]. *)
Definition declared (text : option String.string) : App T :=
  {| faceLandmarker := false; lastVideoTime := lit (-1);
     isDetecting := false; viewerPosition := viewerPosition0;
     camera := None; status := text; console := [];
     detections := 0; rendered := 0 |}.

(* The globals when init starts the loop (lines 470-475) on a page with a
   status line: detector loaded, detection switched on, the status set just
   before; [console] counts from here. *)
Definition started : App T :=
  {| faceLandmarker := true; lastVideoTime := lit (-1);
     isDetecting := true; viewerPosition := viewerPosition0;
     camera := None; status := Some "Starting head tracking..."%string;
     console := []; detections := 0; rendered := 0 |}.

(* A pass that finds the video ready (readyState 4) at time [t]. *)
Definition frame_tick (t : T) (width : N)
    (faces : option (list (list (Point T)))) : Tick T :=
  {| video := Some {| readyState := 4; currentTime := t;
                      videoWidth := width |};
     faceLandmarks := faces |}.

(* Lines 95-115. *)
Definition detectFaceLandmarks (tick : Tick T) (app : App T)
  : option (list (Point T)) * App T :=
  match faceLandmarker app, video tick with
  | true, Some v =>
      if negb (readyState v =? 4)%nat then (None, app)
      else if strict_equal (currentTime v) (lastVideoTime app)
      then (None, app)
      else
        let app' :=
          {| faceLandmarker := faceLandmarker app;
             lastVideoTime := currentTime v;
             isDetecting := isDetecting app;
             viewerPosition := viewerPosition app;
             camera := camera app;
             status := status app;
             console := console app;
             detections := S (detections app);
             rendered := rendered app |} in
        match faceLandmarks tick with
        | Some (first :: _) => (Some first, app')
        | Some [] | None => (None, app')
        end
  | _, _ => (None, app)
  end.

(* Lines 424-430. *)
Definition updateStatus (message : String.string) (app : App T) : App T :=
  match status app with
  | Some _ =>
      {| faceLandmarker := faceLandmarker app;
         lastVideoTime := lastVideoTime app;
         isDetecting := isDetecting app;
         viewerPosition := viewerPosition app;
         camera := camera app;
         status := Some message;
         console := message :: console app;
         detections := detections app;
         rendered := rendered app |}
  | None => app
  end.

(* renderer.render(scene, camera) *)
Definition render (app : App T) : App T :=
  {| faceLandmarker := faceLandmarker app;
     lastVideoTime := lastVideoTime app;
     isDetecting := isDetecting app;
     viewerPosition := viewerPosition app;
     camera := camera app;
     status := status app;
     console := console app;
     detections := detections app;
     rendered := S (rendered app) |}.

(* The writes of lines 397-400: the position estimateViewerPosition hands
   back and the camera update made from it. *)
Definition track (newPosition : Point T) (app : App T) : App T :=
  {| faceLandmarker := faceLandmarker app;
     lastVideoTime := lastVideoTime app;
     isDetecting := isDetecting app;
     viewerPosition := newPosition;
     camera := Some (updateCameraProjection newPosition);
     status := status app;
     console := console app;
     detections := detections app;
     rendered := rendered app |}.

(* Lines 385-415, the whole of a pass.  The status text is read off the
   element without a guard (lines 403 and 408), and [video.videoWidth]
   inside estimateViewerPosition needs the video. *)
Definition animatePass (tick : Tick T) (app : App T) : pass (App T) :=
  if negb (isDetecting app) then Completed app
  else
    let (landmarks, app1) := detectFaceLandmarks tick app in
    match landmarks with
    | Some l =>
        match video tick with
        | None => Threw app1
        | Some v =>
            match estimateViewerPosition (videoWidth v) (Some l)
                    (viewerPosition app1) with
            | TypeError => Threw app1
            | Returned newPosition =>
                let app2 := track newPosition app1 in
                match status app2 with
                | None => Threw app2
                | Some text =>
                    Completed
                      (render
                         (if negb (includes text "Tracking"%string)
                          then updateStatus
                                 "✓ Tracking active - Move your head!"%string app2
                          else app2))
                end
            end
        end
    | None =>
        match status app1 with
        | None => Threw app1
        | Some text =>
            Completed
              (render
                 (if includes text "Tracking"%string
                  then updateStatus "⚠ No face detected"%string app1
                  else app1))
        end
    end.

(* requestAnimationFrame schedules the next pass before anything can throw,
   so the loop goes on after a TypeError. *)
Fixpoint loop (ticks : list (Tick T)) (app : App T) : App T :=
  match ticks with
  | [] => app
  | tick :: rest => loop rest (after (animatePass tick app))
  end.

End Loop.

(** ** Arithmetic of the exact reading *)

Section ExactArithmetic.

Local Open Scope R_scope.

Lemma sign_of_pos (r : R) : 0 < r -> ExactNumber.sign_of r = ExactNumber.Positive.
Proof.
  intros Hr. unfold ExactNumber.sign_of.
  destruct (Rlt_dec 0 r) as [_ | Hn]; [reflexivity | contradiction].
Qed.

Lemma sign_of_neg (r : R) : r < 0 -> ExactNumber.sign_of r = ExactNumber.Negative.
Proof.
  intros Hr. unfold ExactNumber.sign_of.
  destruct (Rlt_dec 0 r) as [Hp | _]; [lra |].
  destruct (Rlt_dec r 0) as [_ | Hn]; [reflexivity | contradiction].
Qed.

Lemma sign_of_null : ExactNumber.sign_of 0 = ExactNumber.Null.
Proof.
  unfold ExactNumber.sign_of.
  destruct (Rlt_dec 0 0) as [Hp | _]; [lra | reflexivity].
Qed.

Lemma lit_fin (q : Q) : lit q = Fin (Q2R q).
Proof. reflexivity. Qed.

Lemma add_fin (a b : R) : (Fin a + Fin b)%js = Fin (a + b).
Proof. reflexivity. Qed.

Lemma sub_fin (a b : R) : (Fin a - Fin b)%js = Fin (a - b).
Proof. reflexivity. Qed.

Lemma mul_fin (a b : R) : (Fin a * Fin b)%js = Fin (a * b).
Proof. reflexivity. Qed.

Lemma neg_fin (a : R) : (- Fin a)%js = Fin (- a).
Proof. reflexivity. Qed.

Lemma div_fin (a b : R) : b <> 0 -> (Fin a / Fin b)%js = Fin (a / b).
Proof.
  intros Hb. cbn. unfold ExactNumber.sign_of.
  destruct (Rlt_dec 0 b) as [_ | Hn]; [reflexivity |].
  destruct (Rlt_dec b 0) as [_ | Hm]; [reflexivity | lra].
Qed.

Lemma div_by_zero (a b : R) : 0 < a -> b = 0 -> (Fin a / Fin b)%js = PInf.
Proof.
  intros Ha ->. cbn. rewrite sign_of_null, (sign_of_pos a Ha). reflexivity.
Qed.

Lemma sqrt_fin (a : R) : 0 <= a -> Math_sqrt (Fin a) = Fin (R_sqrt.sqrt a).
Proof.
  intros Ha. cbn. destruct (Rlt_dec a 0) as [Hn | _]; [lra | reflexivity].
Qed.

Lemma max_fin (a b : R) : Math_max (Fin a) (Fin b) = Fin (Rmax a b).
Proof. reflexivity. Qed.

Lemma min_fin (a b : R) : Math_min (Fin a) (Fin b) = Fin (Rmin a b).
Proof. reflexivity. Qed.

Lemma Q2R_integer (n : Z) : Q2R (inject_Z n) = IZR n.
Proof. unfold Q2R. cbn. lra. Qed.

End ExactArithmetic.

Ltac literals := unfold Q2R; cbn [Qnum Qden].

Create Rewrite HintDb exact_js.
#[local] Hint Rewrite lit_fin add_fin sub_fin mul_fin neg_fin max_fin min_fin
  : exact_js.

(** ** The locals of estimateViewerPosition on numeric landmarks *)

Section ExactEstimate.

Local Open Scope R_scope.

Variables leftEye rightEye : R * R * R.
Variable videoWidth : N.

Lemma ipdPixels_fin :
  ipdPixels (landmark leftEye) (landmark rightEye)
  = Fin (eye_distance leftEye rightEye).
Proof.
  unfold ipdPixels, eye_distance, landmark, pt. cbn [x y z].
  autorewrite with exact_js. apply sqrt_fin.
  apply Rplus_le_le_0_compat; apply Rle_0_sqr.
Qed.

Lemma eye_distance_nonneg : 0 <= eye_distance leftEye rightEye.
Proof. unfold eye_distance. apply sqrt_pos. Qed.

Lemma ipdRatio_fin :
  ipdRatio (landmark leftEye) (landmark rightEye) videoWidth
  = Fin (eye_distance leftEye rightEye * IZR (Z.of_N videoWidth) / (63 / 1000)).
Proof.
  unfold ipdRatio, IPD_MM. rewrite ipdPixels_fin.
  autorewrite with exact_js. rewrite Q2R_integer.
  rewrite (div_fin (Q2R 63) (Q2R 1000)) by (literals; lra).
  rewrite div_fin by (literals; lra).
  f_equal. literals. lra.
Qed.

Lemma estimatedZ_fin :
  estimatedZ (landmark leftEye) (landmark rightEye) videoWidth
  = Fin (depth_of (eye_distance leftEye rightEye) videoWidth).
Proof.
  unfold estimatedZ, depth_of, SCREEN_WIDTH_M. rewrite ipdRatio_fin.
  set (ratio := eye_distance leftEye rightEye * IZR (Z.of_N videoWidth)
                / (63 / 1000)).
  assert (Hratio : 0 <= ratio).
  { unfold ratio. pose proof eye_distance_nonneg as Hd.
    assert (Hw : 0 <= IZR (Z.of_N videoWidth)) by (apply IZR_le; lia).
    apply Rmult_le_pos; [apply Rmult_le_pos; assumption |].
    lra. }
  rewrite !lit_fin.
  destruct (Rlt_dec 0 ratio) as [Hpos | Hzero].
  - rewrite div_fin by lra. autorewrite with exact_js.
    f_equal. literals. replace (20 * / 10) with 2 by lra. reflexivity.
  - rewrite (div_by_zero (Q2R 0.28) ratio) by (literals; lra).
    cbn. f_equal. literals. replace (20 * / 10) with 2 by lra.
    apply Rmax_right. lra.
Qed.

End ExactEstimate.

(** ** The depth estimate as a function of the eye distance *)

Section Depth.

Local Open Scope R_scope.




Lemma depth_of_bounds (d : R) (w : N) : 2 / 10 <= depth_of d w <= 2.
Proof.
  unfold depth_of.
  destruct (Rlt_dec 0 (d * IZR (Z.of_N w) / (63 / 1000))) as [Hpos | Hzero].
  - split; [apply Rmax_l |].
    apply Rmax_lub; [lra | apply Rmin_l].
  - lra.
Qed.

Lemma depth_of_null_distance (w : N) : depth_of 0 w = 2.
Proof.
  unfold depth_of.
  destruct (Rlt_dec 0 (0 * IZR (Z.of_N w) / (63 / 1000))) as [Hpos | Hzero];
    [lra | reflexivity].
Qed.

Lemma width_nonneg (w : N) : 0 <= IZR (Z.of_N w).
Proof. apply IZR_le. lia. Qed.


End Depth.

(** ** estimateViewerPosition, for any reading of the numbers *)

Section Estimator.

Context {T : Type} `{JSNumber T}.

Lemma nth_error_within (l : list (Point T)) (n : nat) :
  (n < length l)%nat -> exists p, nth_error l n = Some p.
Proof.
  intros Hn. destruct (nth_error l n) as [p |] eqn:Hp.
  - exists p. reflexivity.
  - apply nth_error_None in Hp. lia.
Qed.

(* With the required landmarks both eyes are found and the position is
   smoothed toward the raw position of the frame. *)
Lemma estimateViewerPosition_tracked (l : list (Point T)) :
  (478 <= length l)%nat ->
  exists leftEye rightEye,
    nth_error l LEFT_EYE_INDEX = Some leftEye /\
    nth_error l RIGHT_EYE_INDEX = Some rightEye /\
    forall (videoWidth : N) (p : Point T),
      estimateViewerPosition videoWidth (Some l) p
      = Returned
          {| x := smooth (x p) (x (rawPosition leftEye rightEye videoWidth));
             y := smooth (y p) (y (rawPosition leftEye rightEye videoWidth));
             z := smooth (z p) (z (rawPosition leftEye rightEye videoWidth)) |}.
Proof.
  intros Hlen.
  destruct (nth_error_within l LEFT_EYE_INDEX) as [leftEye Hl];
    [unfold LEFT_EYE_INDEX; lia |].
  destruct (nth_error_within l RIGHT_EYE_INDEX) as [rightEye Hr];
    [unfold RIGHT_EYE_INDEX; lia |].
  exists leftEye, rightEye. split; [exact Hl |]. split; [exact Hr |].
  intros videoWidth p. unfold estimateViewerPosition.
  destruct (Nat.ltb_spec (length l) 478) as [Hshort | _]; [lia |].
  rewrite Hl, Hr. reflexivity.
Qed.

(* Without a frame, or with too few landmarks, the position is handed
   back as it came. *)
Lemma estimateViewerPosition_untracked (videoWidth : N)
    (landmarks : option (list (Point T))) (p : Point T) :
  match landmarks with
  | Some l => (length l < 478)%nat
  | None => True
  end ->
  estimateViewerPosition videoWidth landmarks p = Returned p.
Proof.
  destruct landmarks as [l |]; intros Hshort; [| reflexivity].
  unfold estimateViewerPosition.
  destruct (Nat.ltb_spec (length l) 478) as [_ | Hlong]; [reflexivity | lia].
Qed.

(** C3: when the landmark frame is absent (null) or has fewer than 478
    landmarks, estimateViewerPosition returns the previous viewer position,
    x, y and z unchanged, and nothing is thrown. *)
Theorem tracking_loss_keeps_position (videoWidth : N)
    (landmarks : option (list (Point T))) (viewerPosition : Point T) :
  landmarks = None
  \/ (exists l, landmarks = Some l /\ (length l < 478)%nat) ->
  exists p : Point T,
    estimateViewerPosition videoWidth landmarks viewerPosition = Returned p /\
    p = viewerPosition /\
    x p = x viewerPosition /\ y p = y viewerPosition /\
    z p = z viewerPosition.
Proof.
  intros Hlost. exists viewerPosition.
  split; [| repeat split].
  apply estimateViewerPosition_untracked.
  destruct Hlost as [-> | (l & -> & Hshort)]; [exact I | exact Hshort].
Qed.

End Estimator.

Lemma tracking_loss_keeps_position_witness :
  (Some [@coincident float _; coincident] = None
   \/ exists l, Some [@coincident float _; coincident] = Some l
                /\ (length l < 478)%nat) /\
  exists p : Point float,
    estimateViewerPosition 1280 (Some [coincident; coincident])
      viewerPosition0 = Returned p /\
    p = viewerPosition0 /\
    x p = x (@viewerPosition0 float _) /\ y p = y (@viewerPosition0 float _) /\
    z p = z (@viewerPosition0 float _).
Proof.
  assert (Hlost : Some [@coincident float _; coincident] = None
                  \/ exists l, Some [@coincident float _; coincident] = Some l
                               /\ (length l < 478)%nat).
  { right. eexists. split; [reflexivity |]. cbn [length]. lia. }
  split; [exact Hlost |].
  exact (tracking_loss_keeps_position 1280 _ viewerPosition0 Hlost).
Defined.

(** ** The frustum on numeric viewer positions *)

Section Projector.

Local Open Scope R_scope.

Variables vx vy vz : R.
Hypothesis in_front : 0 < vz.

Lemma left_fin :
  left (projection (updateCameraProjection (pt vx vy vz)))
  = Fin ((- (28 / 100 / 2) - vx) * (1 / 100) / vz).
Proof.
  unfold updateCameraProjection, SCREEN_WIDTH_M, pt. cbn [left projection x y z].
  rewrite !lit_fin. rewrite (div_fin (Q2R 0.28)) by (literals; lra).
  autorewrite with exact_js. rewrite div_fin by lra.
  f_equal. literals. lra.
Qed.

Lemma right_fin :
  right (projection (updateCameraProjection (pt vx vy vz)))
  = Fin ((28 / 100 / 2 - vx) * (1 / 100) / vz).
Proof.
  unfold updateCameraProjection, SCREEN_WIDTH_M, pt. cbn [right projection x y z].
  rewrite !lit_fin. rewrite (div_fin (Q2R 0.28)) by (literals; lra).
  autorewrite with exact_js. rewrite div_fin by lra.
  f_equal. literals. lra.
Qed.

Lemma bottom_fin :
  bottom (projection (updateCameraProjection (pt vx vy vz)))
  = Fin ((- (16 / 100 / 2) - vy) * (1 / 100) / vz).
Proof.
  unfold updateCameraProjection, SCREEN_HEIGHT_M, pt.
  cbn [bottom projection x y z].
  rewrite !lit_fin. rewrite (div_fin (Q2R 0.16)) by (literals; lra).
  autorewrite with exact_js. rewrite div_fin by lra.
  f_equal. literals. lra.
Qed.

Lemma top_fin :
  top (projection (updateCameraProjection (pt vx vy vz)))
  = Fin ((16 / 100 / 2 - vy) * (1 / 100) / vz).
Proof.
  unfold updateCameraProjection, SCREEN_HEIGHT_M, pt.
  cbn [top projection x y z].
  rewrite !lit_fin. rewrite (div_fin (Q2R 0.16)) by (literals; lra).
  autorewrite with exact_js. rewrite div_fin by lra.
  f_equal. literals. lra.
Qed.

End Projector.

Lemma triple_eq (a b c a' b' c' : R) :
  a = a' -> b = b' -> c = c' -> (a, b, c) = (a', b', c').
Proof. intros -> -> ->. reflexivity. Qed.

(** C1: for a viewer at (x, y, z) with z > 0 and the near plane 0.01, the
    bounds updateCameraProjection computes are
    left = (-halfWidth - x) * near / z, right = (halfWidth - x) * near / z,
    bottom = (-halfHeight - y) * near / z, top = (halfHeight - y) * near / z,
    with halfWidth = 0.28 / 2 and halfHeight = 0.16 / 2; and they are the
    projection of the screen corners through the eye onto the near plane: the
    line from the eye to the corner (+-halfWidth, +-halfHeight, 0) meets the
    plane at distance near in front of the eye at the eye position shifted
    by the matching pair of bounds. *)
Theorem frustum_projects_screen_corners (vx vy vz : R) :
  (0 < vz)%R ->
  let f := projection (updateCameraProjection (pt vx vy vz)) in
  let halfWidth := (28 / 100 / 2)%R in
  let halfHeight := (16 / 100 / 2)%R in
  let n := (1 / 100)%R in
  let eye := (vx, vy, vz) in
  exists l r b t : R,
    (left f = Fin l /\ right f = Fin r /\ bottom f = Fin b /\ top f = Fin t
     /\ near f = Fin n) /\
    (l = (- halfWidth - vx) * n / vz /\ r = (halfWidth - vx) * n / vz /\
     b = (- halfHeight - vy) * n / vz /\ t = (halfHeight - vy) * n / vz)%R /\
    (along eye (- halfWidth, - halfHeight, 0) (n / vz) = (vx + l, vy + b, vz - n)
     /\ along eye (halfWidth, - halfHeight, 0) (n / vz) = (vx + r, vy + b, vz - n)
     /\ along eye (- halfWidth, halfHeight, 0) (n / vz) = (vx + l, vy + t, vz - n)
     /\ along eye (halfWidth, halfHeight, 0) (n / vz) = (vx + r, vy + t, vz - n))%R.
Proof.
  intros Hz f halfWidth halfHeight n eye.
  exists ((- halfWidth - vx) * n / vz)%R, ((halfWidth - vx) * n / vz)%R,
         ((- halfHeight - vy) * n / vz)%R, ((halfHeight - vy) * n / vz)%R.
  split.
  - subst f. rewrite left_fin, right_fin, bottom_fin, top_fin by exact Hz.
    repeat split; try reflexivity.
  - split; [repeat split; reflexivity |].
    unfold along, eye. subst halfWidth halfHeight n.
    repeat split; apply triple_eq; field; lra.
Qed.

Lemma frustum_projects_screen_corners_witness :
  (0 < 5 / 10)%R /\
  exists l r b t : R,
    (left (projection (updateCameraProjection (pt 0 0 (5 / 10)))) = Fin l /\
     right (projection (updateCameraProjection (pt 0 0 (5 / 10)))) = Fin r /\
     bottom (projection (updateCameraProjection (pt 0 0 (5 / 10)))) = Fin b /\
     top (projection (updateCameraProjection (pt 0 0 (5 / 10)))) = Fin t /\
     near (projection (updateCameraProjection (pt 0 0 (5 / 10))))
     = Fin (1 / 100)) /\
    (l = (- (28 / 100 / 2) - 0) * (1 / 100) / (5 / 10) /\
     r = (28 / 100 / 2 - 0) * (1 / 100) / (5 / 10) /\
     b = (- (16 / 100 / 2) - 0) * (1 / 100) / (5 / 10) /\
     t = (16 / 100 / 2 - 0) * (1 / 100) / (5 / 10))%R /\
    (along (0, 0, 5 / 10) (- (28 / 100 / 2), - (16 / 100 / 2), 0)
       (1 / 100 / (5 / 10)) = (0 + l, 0 + b, 5 / 10 - 1 / 100) /\
     along (0, 0, 5 / 10) (28 / 100 / 2, - (16 / 100 / 2), 0)
       (1 / 100 / (5 / 10)) = (0 + r, 0 + b, 5 / 10 - 1 / 100) /\
     along (0, 0, 5 / 10) (- (28 / 100 / 2), 16 / 100 / 2, 0)
       (1 / 100 / (5 / 10)) = (0 + l, 0 + t, 5 / 10 - 1 / 100) /\
     along (0, 0, 5 / 10) (28 / 100 / 2, 16 / 100 / 2, 0)
       (1 / 100 / (5 / 10)) = (0 + r, 0 + t, 5 / 10 - 1 / 100))%R.
Proof.
  assert (Hz : (0 < 5 / 10)%R) by lra.
  split; [exact Hz |].
  exact (frustum_projects_screen_corners 0 0 (5 / 10) Hz).
Defined.

(** C7: for a viewer at x = 0, y = 0 and any z > 0, the frustum
    updateCameraProjection computes is symmetric: left = -right and
    bottom = -top. *)
Theorem centered_viewer_symmetric_frustum (vz : R) :
  (0 < vz)%R ->
  let f := projection (updateCameraProjection (pt 0 0 vz)) in
  exists r t : R,
    right f = Fin r /\ top f = Fin t /\
    left f = Fin (- r) /\ bottom f = Fin (- t) /\
    left f = (- right f)%js /\ bottom f = (- top f)%js.
Proof.
  intros Hz f. subst f.
  rewrite left_fin, right_fin, bottom_fin, top_fin by exact Hz.
  exists ((28 / 100 / 2 - 0) * (1 / 100) / vz)%R,
         ((16 / 100 / 2 - 0) * (1 / 100) / vz)%R.
  rewrite !neg_fin.
  repeat split; f_equal; field; lra.
Qed.

Lemma centered_viewer_symmetric_frustum_witness :
  (0 < 1)%R /\
  exists r t : R,
    right (projection (updateCameraProjection (pt 0 0 1))) = Fin r /\
    top (projection (updateCameraProjection (pt 0 0 1))) = Fin t /\
    left (projection (updateCameraProjection (pt 0 0 1))) = Fin (- r) /\
    bottom (projection (updateCameraProjection (pt 0 0 1))) = Fin (- t) /\
    left (projection (updateCameraProjection (pt 0 0 1)))
    = (- right (projection (updateCameraProjection (pt 0 0 1))))%js /\
    bottom (projection (updateCameraProjection (pt 0 0 1)))
    = (- top (projection (updateCameraProjection (pt 0 0 1))))%js.
Proof.
  split; [exact Rlt_0_1 |].
  exact (centered_viewer_symmetric_frustum 1 Rlt_0_1).
Defined.



(** ** Smoothing on numeric values *)

Section Smoothing.

Local Open Scope R_scope.

Lemma pt_eq (a b c a' b' c' : R) :
  a = a' -> b = b' -> c = c' -> pt a b c = pt a' b' c'.
Proof. intros -> -> ->. reflexivity. Qed.

Lemma smooth_fin (s r : R) :
  smooth (Fin s) (Fin r) = Fin (s * (7 / 10) + r * (3 / 10)).
Proof.
  unfold smooth, smoothing. autorewrite with exact_js.
  f_equal. literals. lra.
Qed.



Lemma rawPosition_fin (leftEye rightEye : R * R * R) (videoWidth : N) :
  exists rx ry : R,
    rawPosition (landmark leftEye) (landmark rightEye) videoWidth
    = pt rx ry (depth_of (eye_distance leftEye rightEye) videoWidth).
Proof.
  unfold rawPosition. rewrite estimatedZ_fin.
  unfold centerX, centerY, SCREEN_WIDTH_M, SCREEN_HEIGHT_M, landmark, pt.
  cbn [x y z]. rewrite !lit_fin, !add_fin.
  rewrite !(div_fin _ (Q2R 2)) by (literals; lra).
  rewrite (div_fin _ (Q2R 0.5)) by (literals; lra).
  autorewrite with exact_js. eexists. eexists. reflexivity.
Qed.

(* A frame of numeric landmarks with the required count: the eyes, the raw
   position and the update. *)
Lemma tracked_frame (pts : list (R * R * R)) (videoWidth : N) :
  (478 <= length pts)%nat ->
  exists (leftEye rightEye : R * R * R) (rx ry : R),
    nth_error (frame_of pts) LEFT_EYE_INDEX = Some (landmark leftEye) /\
    nth_error (frame_of pts) RIGHT_EYE_INDEX = Some (landmark rightEye) /\
    rawPosition (landmark leftEye) (landmark rightEye) videoWidth
    = pt rx ry (depth_of (eye_distance leftEye rightEye) videoWidth) /\
    forall sx sy sz : R,
      estimateViewerPosition videoWidth (Some (frame_of pts)) (pt sx sy sz)
      = Returned
          (pt (sx * (7 / 10) + rx * (3 / 10))
              (sy * (7 / 10) + ry * (3 / 10))
              (sz * (7 / 10)
               + depth_of (eye_distance leftEye rightEye) videoWidth
                 * (3 / 10))).
Proof.
  intros Hlen.
  destruct (estimateViewerPosition_tracked (frame_of pts))
    as (l & r & Hl & Hr & Hstep);
    [unfold frame_of; rewrite length_map; exact Hlen |].
  unfold frame_of in Hl, Hr.
  rewrite nth_error_map in Hl, Hr.
  destruct (nth_error pts LEFT_EYE_INDEX) as [leftEye |] eqn:El;
    [| discriminate Hl].
  destruct (nth_error pts RIGHT_EYE_INDEX) as [rightEye |] eqn:Er;
    [| discriminate Hr].
  cbn in Hl, Hr. injection Hl as <-. injection Hr as <-.
  destruct (rawPosition_fin leftEye rightEye videoWidth) as (rx & ry & Hraw).
  exists leftEye, rightEye, rx, ry.
  split; [unfold frame_of; rewrite nth_error_map, El; reflexivity |].
  split; [unfold frame_of; rewrite nth_error_map, Er; reflexivity |].
  split; [exact Hraw |].
  intros sx sy sz. rewrite Hstep, Hraw. unfold pt. cbn [x y z].
  rewrite !smooth_fin. reflexivity.
Qed.

End Smoothing.







(** ** The depth estimate *)

Section DepthEstimate.

Local Open Scope R_scope.


Lemma coincident_distance (leftEye rightEye : R * R * R) :
  fst (fst leftEye) = fst (fst rightEye) ->
  snd (fst leftEye) = snd (fst rightEye) ->
  eye_distance leftEye rightEye = 0.
Proof.
  intros Hx Hy. unfold eye_distance. rewrite Hx, Hy.
  replace ((fst (fst rightEye) - fst (fst rightEye))
           * (fst (fst rightEye) - fst (fst rightEye))
           + (snd (fst rightEye) - snd (fst rightEye))
             * (snd (fst rightEye) - snd (fst rightEye))) with 0 by ring.
  apply sqrt_0.
Qed.

End DepthEstimate.

(** C2, as the code has it: for every landmark frame with the required
    landmarks, numeric coordinates and any video width, the depth estimate
    of estimateViewerPosition is a number in [0.2, 2.0] and the call
    returns; the denominator of the quotient is not clamped: when the two
    eye points coincide the ratio is 0, the quotient is Infinity and the
    estimate is the upper bound 2.0, never NaN or infinity. *)
Theorem depth_estimate_within_clamp (pts : list (R * R * R)) (videoWidth : N) :
  (478 <= length pts)%nat ->
  exists (leftEye rightEye : Point jsreal) (v : R),
    nth_error (frame_of pts) LEFT_EYE_INDEX = Some leftEye /\
    nth_error (frame_of pts) RIGHT_EYE_INDEX = Some rightEye /\
    estimatedZ leftEye rightEye videoWidth = Fin v /\
    (2 / 10 <= v <= 2)%R /\
    (x leftEye = x rightEye -> y leftEye = y rightEye ->
     ipdRatio leftEye rightEye videoWidth = Fin 0 /\
     (SCREEN_WIDTH_M / ipdRatio leftEye rightEye videoWidth)%js = PInf /\
     v = 2%R) /\
    forall p : Point jsreal, exists p' : Point jsreal,
      estimateViewerPosition videoWidth (Some (frame_of pts)) p = Returned p'
      /\ z p' = smooth (z p) (Fin v).
Proof.
  intros Hlen.
  destruct (estimateViewerPosition_tracked (frame_of pts))
    as (l & r & Hl & Hr & Hstep);
    [unfold frame_of; rewrite length_map; exact Hlen |].
  pose proof Hl as Hl'. pose proof Hr as Hr'.
  unfold frame_of in Hl', Hr'. rewrite nth_error_map in Hl', Hr'.
  destruct (nth_error pts LEFT_EYE_INDEX) as [leftEye |];
    [| discriminate Hl'].
  destruct (nth_error pts RIGHT_EYE_INDEX) as [rightEye |];
    [| discriminate Hr'].
  cbn in Hl', Hr'. injection Hl' as <-. injection Hr' as <-.
  exists (landmark leftEye), (landmark rightEye),
    (depth_of (eye_distance leftEye rightEye) videoWidth).
  split; [exact Hl |]. split; [exact Hr |].
  split; [apply estimatedZ_fin |].
  split; [apply depth_of_bounds |].
  split.
  - intros Hx Hy. unfold landmark, pt in Hx, Hy. cbn [x y] in Hx, Hy.
    injection Hx as Hx. injection Hy as Hy.
    rewrite ipdRatio_fin, (coincident_distance leftEye rightEye Hx Hy).
    replace (0 * IZR (Z.of_N videoWidth) / (63 / 1000))%R with 0%R
      by (unfold Rdiv; ring).
    split; [reflexivity |]. split; [| apply depth_of_null_distance].
    unfold SCREEN_WIDTH_M. rewrite lit_fin.
    apply div_by_zero; [literals; lra | reflexivity].
  - intros p. eexists. split; [apply Hstep |].
    cbn [z]. unfold rawPosition. cbn [z]. rewrite estimatedZ_fin. reflexivity.
Qed.

Lemma depth_estimate_within_clamp_witness :
  (478 <= length (repeat (5 / 10, 5 / 10, 0)%R 478))%nat /\
  exists (leftEye rightEye : Point jsreal) (v : R),
    nth_error (frame_of (repeat (5 / 10, 5 / 10, 0)%R 478)) LEFT_EYE_INDEX
    = Some leftEye /\
    nth_error (frame_of (repeat (5 / 10, 5 / 10, 0)%R 478)) RIGHT_EYE_INDEX
    = Some rightEye /\
    estimatedZ leftEye rightEye 1280 = Fin v /\
    (2 / 10 <= v <= 2)%R /\
    (x leftEye = x rightEye -> y leftEye = y rightEye ->
     ipdRatio leftEye rightEye 1280 = Fin 0 /\
     (SCREEN_WIDTH_M / ipdRatio leftEye rightEye 1280)%js = PInf /\
     v = 2%R) /\
    forall p : Point jsreal, exists p' : Point jsreal,
      estimateViewerPosition 1280
        (Some (frame_of (repeat (5 / 10, 5 / 10, 0)%R 478))) p = Returned p'
      /\ z p' = smooth (z p) (Fin v).
Proof.
  assert (Hlen : (478 <= length (repeat (5 / 10, 5 / 10, 0)%R 478))%nat)
    by (rewrite repeat_length; apply le_n).
  split; [exact Hlen |].
  exact (depth_estimate_within_clamp (repeat (5 / 10, 5 / 10, 0)%R 478) 1280
           Hlen).
Defined.

(** C2 as stated fails: with both eye points at (0.5, 0.5) and a video
    1280 pixels wide the estimate is 2.0, not minDepth 0.2, in exact
    arithmetic and in binary64 alike. *)
Lemma coincident_eyes_estimate_max_depth :
  estimatedZ (T := jsreal) coincident coincident 1280 = Fin 2 /\
  estimatedZ (T := jsreal) coincident coincident 1280 <> lit 0.2 /\
  estimatedZ (T := float) coincident coincident 1280 = 2%float /\
  PrimFloat.eqb (estimatedZ (T := float) coincident coincident 1280) (lit 0.2)
  = false.
Proof.
  assert (Hexact : estimatedZ (T := jsreal) coincident coincident 1280 = Fin 2).
  { change (@coincident jsreal _)
      with (landmark (Q2R 0.5, Q2R 0.5, Q2R 0)).
    rewrite estimatedZ_fin, coincident_distance by reflexivity.
    rewrite depth_of_null_distance. reflexivity. }
  split; [exact Hexact |]. split.
  - rewrite Hexact, lit_fin. intros Heq. injection Heq as Heq.
    revert Heq. literals. lra.
  - split; vm_compute; reflexivity.
Qed.


(** ** End-to-end scenario 2 *)

Section Scenario2.

Local Open Scope R_scope.

Lemma rawPosition_explicit (leftEye rightEye : R * R * R) (videoWidth : N) :
  rawPosition (landmark leftEye) (landmark rightEye) videoWidth
  = pt (((fst (fst leftEye) + fst (fst rightEye)) / 2 - 5 / 10) * (28 / 100)
        * (depth_of (eye_distance leftEye rightEye) videoWidth / (5 / 10)))
       ((5 / 10 - (snd (fst leftEye) + snd (fst rightEye)) / 2) * (16 / 100)
        * (depth_of (eye_distance leftEye rightEye) videoWidth / (5 / 10)))
       (depth_of (eye_distance leftEye rightEye) videoWidth).
Proof.
  unfold rawPosition. rewrite estimatedZ_fin.
  unfold centerX, centerY, SCREEN_WIDTH_M, SCREEN_HEIGHT_M, landmark, pt.
  cbn [x y z fst snd]. rewrite !lit_fin, !add_fin.
  rewrite !(div_fin _ (Q2R 2)) by (literals; lra).
  rewrite (div_fin _ (Q2R 0.5)) by (literals; lra).
  autorewrite with exact_js.
  f_equal; f_equal; literals; lra.
Qed.

Lemma scenario2_distance :
  eye_distance (Q2R 0.45, Q2R 0.5, Q2R 0) (Q2R 0.55, Q2R 0.5, Q2R 0) = 1 / 10.
Proof.
  unfold eye_distance. cbn [fst snd].
  replace ((Q2R 0.55 - Q2R 0.45) * (Q2R 0.55 - Q2R 0.45)
           + (Q2R 0.5 - Q2R 0.5) * (Q2R 0.5 - Q2R 0.5))
    with (Rsqr (1 / 10)) by (unfold Rsqr; literals; lra).
  apply sqrt_Rsqr. lra.
Qed.

(* The quotient is 0.28 * 0.063 / 128, far below the lower clamp bound. *)
Lemma scenario2_depth : depth_of (1 / 10) 1280 = 2 / 10.
Proof.
  unfold depth_of. change (IZR (Z.of_N 1280)) with 1280.
  destruct (Rlt_dec 0 (1 / 10 * 1280 / (63 / 1000))) as [_ | Hn]; [| lra].
  apply Rmax_left. apply Rle_trans with (1 := Rmin_r _ _). lra.
Qed.

End Scenario2.

Lemma face_length {T : Type} (filler leftEye rightEye : Point T) :
  length (face filler leftEye rightEye) = 478%nat.
Proof.
  unfold face. rewrite length_app, repeat_length. cbn [length].
  rewrite length_app, repeat_length. cbn [length].
  rewrite repeat_length. reflexivity.
Qed.

Lemma face_eyes {T : Type} (filler leftEye rightEye : Point T) :
  nth_error (face filler leftEye rightEye) LEFT_EYE_INDEX = Some leftEye /\
  nth_error (face filler leftEye rightEye) RIGHT_EYE_INDEX = Some rightEye.
Proof. split; reflexivity. Qed.

(** C9: with the default calibration, eye landmarks at (0.45, 0.5) and
    (0.55, 0.5) and a video 1280 pixels wide, the estimated raw z is within
    [0.2, 2.0]; one smoothing step from the initial position (0, 0, 0.5)
    gives z = 0.5 * 0.7 + raw * 0.3, which lies between the raw value and
    0.5 and keeps exactly the fraction 0.7 of the old offset. *)
Theorem scenario2_first_frame :
  exists (leftEye rightEye : Point jsreal) (raw v : R),
    (x leftEye = lit 0.45 /\ y leftEye = lit 0.5 /\
     x rightEye = lit 0.55 /\ y rightEye = lit 0.5) /\
    nth_error scenario2 LEFT_EYE_INDEX = Some leftEye /\
    nth_error scenario2 RIGHT_EYE_INDEX = Some rightEye /\
    estimatedZ leftEye rightEye 1280 = Fin raw /\
    (2 / 10 <= raw <= 2)%R /\
    estimateViewerPosition 1280 (Some scenario2) viewerPosition0
    = Returned (pt 0 0 v) /\
    (v = 5 / 10 * (7 / 10) + raw * (3 / 10))%R /\
    (raw < v < 5 / 10)%R /\
    (v - raw = 7 / 10 * (5 / 10 - raw))%R.
Proof.
  set (leftEye := (Q2R 0.45, Q2R 0.5, Q2R 0)).
  set (rightEye := (Q2R 0.55, Q2R 0.5, Q2R 0)).
  assert (Hraw : estimatedZ (landmark leftEye) (landmark rightEye) 1280
                 = Fin (2 / 10)).
  { rewrite estimatedZ_fin. unfold leftEye, rightEye.
    rewrite scenario2_distance, scenario2_depth. reflexivity. }
  exists (landmark leftEye), (landmark rightEye), (2 / 10)%R,
    (5 / 10 * (7 / 10) + 2 / 10 * (3 / 10))%R.
  split; [repeat split |]. split; [reflexivity |]. split; [reflexivity |].
  split; [exact Hraw |]. split; [lra |].
  split; [| split; [reflexivity | split; lra]].
  destruct (estimateViewerPosition_tracked (T := jsreal) scenario2)
    as (l & r & Hl & Hr & Hstep).
  { unfold scenario2. rewrite face_length. apply le_n. }
  unfold scenario2 in Hl, Hr.
  destruct (face_eyes (T := jsreal)
              {| x := lit 0; y := lit 0; z := lit 0 |}
              (landmark leftEye) (landmark rightEye)) as [Hl' Hr'].
  change (nth_error (face {| x := lit 0; y := lit 0; z := lit 0 |}
                       (landmark leftEye) (landmark rightEye))
            LEFT_EYE_INDEX = Some l) in Hl.
  change (nth_error (face {| x := lit 0; y := lit 0; z := lit 0 |}
                       (landmark leftEye) (landmark rightEye))
            RIGHT_EYE_INDEX = Some r) in Hr.
  rewrite Hl' in Hl. rewrite Hr' in Hr.
  injection Hl as <-. injection Hr as <-.
  rewrite Hstep, rawPosition_explicit.
  unfold leftEye, rightEye.
  rewrite scenario2_distance, scenario2_depth.
  unfold viewerPosition0, pt. cbn [x y z fst snd].
  rewrite !lit_fin, !smooth_fin. f_equal.
  apply pt_eq; literals; lra.
Qed.

(** ** The depth invariant along the frames *)

Section Invariant.

Local Open Scope R_scope.

Lemma initial_in_range : in_range viewerPosition0.
Proof.
  exists 0, 0, (5 / 10). split; [| lra].
  unfold viewerPosition0. rewrite !lit_fin. apply pt_eq; literals; lra.
Qed.

Lemma camera_well_formed (p : Point jsreal) :
  in_range p -> well_formed (updateCameraProjection p).
Proof.
  intros (a & b & c & -> & Hc).
  assert (Hpos : 0 < c) by lra.
  do 4 eexists. exists c.
  rewrite left_fin, right_fin, top_fin, bottom_fin by exact Hpos.
  repeat split; try reflexivity; lra.
Qed.

Lemma estimate_in_range (videoWidth : N)
    (landmarks : option (list (R * R * R))) (p : Point jsreal) :
  in_range p ->
  exists p',
    estimateViewerPosition videoWidth (option_map frame_of landmarks) p
    = Returned p' /\ in_range p'.
Proof.
  intros Hp. destruct landmarks as [pts |]; cbn [option_map].
  - destruct (Nat.lt_ge_cases (length pts) 478) as [Hshort | Hlong].
    + exists p. split; [| exact Hp].
      apply estimateViewerPosition_untracked.
      unfold frame_of. rewrite length_map. exact Hshort.
    + destruct (tracked_frame pts videoWidth Hlong)
        as (leftEye & rightEye & rx & ry & _ & _ & _ & Hstep).
      destruct Hp as (a & b & c & -> & Hc).
      eexists. split; [apply Hstep |].
      do 3 eexists. split; [reflexivity |].
      pose proof (depth_of_bounds (eye_distance leftEye rightEye) videoWidth).
      lra.
  - exists p. split; [reflexivity | exact Hp].
Qed.

Lemma animate_in_range (frame : N * option (list (R * R * R)))
    (p : Point jsreal) :
  in_range p ->
  exists p' camera,
    animate (detection_of frame) p = Returned (p', camera) /\
    in_range p' /\
    match snd frame with
    | Some _ => exists c, camera = Some c /\ well_formed c
    | None => camera = None
    end.
Proof.
  intros Hp. destruct frame as [videoWidth [pts |]].
  - destruct (estimate_in_range videoWidth (Some pts) p Hp) as (p' & Hp' & Hr).
    exists p', (Some (updateCameraProjection p')).
    unfold animate, detection_of. cbn [fst snd option_map] in *.
    rewrite Hp'. split; [reflexivity |]. split; [exact Hr |].
    eexists. split; [reflexivity |]. apply camera_well_formed. exact Hr.
  - exists p, None. split; [reflexivity |]. split; [exact Hp | reflexivity].
Qed.

Lemma run_in_range (frames : list (N * option (list (R * R * R)))) :
  forall (p : Point jsreal) (cameras : list (Camera jsreal)),
    in_range p -> Forall well_formed cameras ->
    exists p' cameras',
      run (map detection_of frames) p cameras = Returned (p', cameras') /\
      in_range p' /\ Forall well_formed cameras' /\
      length cameras'
      = (length (filter (fun f => match snd f with
                                  | Some _ => true
                                  | None => false
                                  end) frames) + length cameras)%nat.
Proof.
  induction frames as [| frame rest IH]; intros p cameras Hp Hcams.
  - exists p, cameras. repeat split; assumption.
  - destruct (animate_in_range frame p Hp) as (p1 & camera & Hstep & Hp1 & Hc).
    cbn [map run filter]. rewrite Hstep.
    destruct (snd frame) as [pts |].
    + destruct Hc as (c & -> & Hwf).
      destruct (IH p1 (c :: cameras) Hp1 (Forall_cons c Hwf Hcams))
        as (p' & cameras' & Hrun & Hp' & Hcams' & Hlen).
      exists p', cameras'. repeat split; try assumption.
      rewrite Hlen. cbn [length]. lia.
    + subst camera.
      destruct (IH p1 cameras Hp1 Hcams)
        as (p' & cameras' & Hrun & Hp' & Hcams' & Hlen).
      exists p', cameras'. repeat split; assumption.
Qed.

End Invariant.

(** C10, for landmarks with numeric coordinates: the z of the viewer
    position lies in [0.2, 2.0]: it starts at 0.5 and, over any sequence of
    frames (no face, too few landmarks, or landmarks whose coordinates are
    finite numbers), every pass returns with z a number in that interval;
    hence z is strictly positive on every frame and every camera update
    divides by a non-zero z: all its bounds are numbers.  A NaN coordinate
    breaks this ([nan_frame_leaves_depth_range]). *)
Theorem viewer_depth_stays_in_range
    (frames : list (N * option (list (R * R * R)))) :
  z (@viewerPosition0 jsreal _) = Fin (5 / 10) /\
  exists (a b c : R) (cameras : list (Camera jsreal)),
    run (map detection_of frames) viewerPosition0 []
    = Returned (pt a b c, cameras) /\
    (2 / 10 <= c <= 2)%R /\ (0 < c)%R /\
    Forall well_formed cameras /\
    length cameras
    = length (filter (fun f => match snd f with
                               | Some _ => true
                               | None => false
                               end) frames).
Proof.
  split; [reflexivity |].
  destruct (run_in_range frames viewerPosition0 [] initial_in_range
              (Forall_nil _))
    as (p & cameras & Hrun & (a & b & c & -> & Hc) & Hcams & Hlen).
  exists a, b, c, cameras.
  split; [exact Hrun |]. split; [exact Hc |]. split; [lra |].
  split; [exact Hcams |]. rewrite Hlen. cbn [length]. lia.
Qed.

(** ** Binary64 runs *)

(* Scenario 2 on doubles: the estimate is the double 0.2 and the first frame
   moves z from 0.5 to the double 0.41. *)
Example binary64_scenario2 :
  estimatedZ (T := float) {| x := lit 0.45; y := lit 0.5; z := lit 0 |}
    {| x := lit 0.55; y := lit 0.5; z := lit 0 |} 1280 = lit 0.2 /\
  estimateViewerPosition (T := float) 1280 (Some scenario2) viewerPosition0
  = Returned {| x := lit 0; y := lit 0; z := lit 0.41 |}.
Proof. split; vm_compute; reflexivity. Qed.

(* A frame without a face leaves the position alone and the camera
   untouched; the next frame updates both. *)
Example binary64_two_frames :
  exists camera : Camera float,
    run (T := float) [(1280%N, None); (1280%N, Some scenario2)]
      viewerPosition0 []
    = Returned ({| x := lit 0; y := lit 0; z := lit 0.41 |}, [camera]) /\
    position camera = {| x := lit 0; y := lit 0; z := lit 0.41 |} /\
    left (projection camera) = PrimFloat.opp (right (projection camera)) /\
    bottom (projection camera) = PrimFloat.opp (top (projection camera)).
Proof. eexists. repeat split; vm_compute; reflexivity. Qed.

(* The exact reading leaves rounding out.  On doubles, 1 - 0.7 is
   0.30000000000000004 and the products are rounded, so a step from a value
   that already equals the raw value can land one unit in the last place
   away from it: 0.45 goes to 0.45000000000000007. *)
Example binary64_step_rounds :
  PrimFloat.compare (smooth (T := float) (lit 0.45) (lit 0.45)) (lit 0.45)
  = FGt /\
  PrimFloat.compare (smooth (T := float) (lit 0.45) (lit 0.45))
    (PrimFloat.next_up (lit 0.45))
  = FEq.
Proof. split; vm_compute; reflexivity. Qed.

(** ** More on the frustum *)

Section FrustumShape.

Local Open Scope R_scope.

(* The four bounds at once, as numerators over the depth. *)
Lemma bounds_fin (vx vy vz : R) :
  0 < vz ->
  let f := projection (updateCameraProjection (pt vx vy vz)) in
  left f = Fin ((- (14 / 100) - vx) / 100 / vz) /\
  right f = Fin ((14 / 100 - vx) / 100 / vz) /\
  bottom f = Fin ((- (8 / 100) - vy) / 100 / vz) /\
  top f = Fin ((8 / 100 - vy) / 100 / vz).
Proof.
  intros Hz f. subst f.
  rewrite left_fin, right_fin, bottom_fin, top_fin by exact Hz.
  repeat split; f_equal; field; lra.
Qed.

Lemma scaled_sign (a vz : R) :
  0 < vz -> (a / 100 / vz < 0 <-> a < 0) /\ (0 < a / 100 / vz <-> 0 < a).
Proof.
  intros Hz.
  assert (Hk : 0 < / 100 * / vz).
  { apply Rmult_lt_0_compat; [lra | apply Rinv_0_lt_compat; exact Hz]. }
  replace (a / 100 / vz) with (a * (/ 100 * / vz)) by (field; lra).
  repeat split; intros Ha; nra.
Qed.

End FrustumShape.

(** X1: for every viewer in front of the screen, the frustum is as wide as
    the screen scaled by near / z and as high as the screen scaled by
    near / z, wherever the viewer stands sideways: right - left =
    0.28 * 0.01 / z and top - bottom = 0.16 * 0.01 / z; so left < right,
    bottom < top and the frustum keeps the proportions 0.28 : 0.16 of the
    screen. *)
Theorem frustum_has_screen_extent (vx vy vz : R) :
  (0 < vz)%R ->
  let f := projection (updateCameraProjection (pt vx vy vz)) in
  exists l r b t : R,
    (left f = Fin l /\ right f = Fin r /\ bottom f = Fin b /\ top f = Fin t) /\
    (r - l = 28 / 100 * (1 / 100) / vz /\ t - b = 16 / 100 * (1 / 100) / vz)%R /\
    (l < r /\ b < t)%R /\
    ((r - l) * (16 / 100) = (t - b) * (28 / 100))%R.
Proof.
  intros Hz f. destruct (bounds_fin vx vy vz Hz) as (Hl & Hr & Hb & Ht).
  do 4 eexists. split; [repeat split; eassumption |].
  assert (Hk : (0 < / vz)%R) by (apply Rinv_0_lt_compat; exact Hz).
  split; [split; field; lra |].
  split; [| field; lra].
  unfold Rdiv. split; apply Rmult_lt_compat_r; try exact Hk; lra.
Qed.

Lemma frustum_has_screen_extent_witness :
  (0 < 5 / 10)%R /\
  exists l r b t : R,
    (left (projection (updateCameraProjection (pt 1 1 (5 / 10)))) = Fin l /\
     right (projection (updateCameraProjection (pt 1 1 (5 / 10)))) = Fin r /\
     bottom (projection (updateCameraProjection (pt 1 1 (5 / 10)))) = Fin b /\
     top (projection (updateCameraProjection (pt 1 1 (5 / 10)))) = Fin t) /\
    (r - l = 28 / 100 * (1 / 100) / (5 / 10)
     /\ t - b = 16 / 100 * (1 / 100) / (5 / 10))%R /\
    (l < r /\ b < t)%R /\
    ((r - l) * (16 / 100) = (t - b) * (28 / 100))%R.
Proof.
  assert (Hz : (0 < 5 / 10)%R) by lra.
  split; [exact Hz |].
  exact (frustum_has_screen_extent 1 1 (5 / 10) Hz).
Defined.

(** X2: for a fixed x and y the four bounds scale inversely with the depth:
    moving the viewer from depth z1 to depth z2 multiplies left, right,
    bottom and top by z1 / z2. *)
Theorem frustum_scales_inversely_with_depth (vx vy z1 z2 : R) :
  (0 < z1)%R -> (0 < z2)%R ->
  let f1 := projection (updateCameraProjection (pt vx vy z1)) in
  let f2 := projection (updateCameraProjection (pt vx vy z2)) in
  exists l r b t : R,
    (left f1 = Fin l /\ right f1 = Fin r /\ bottom f1 = Fin b /\ top f1 = Fin t)
    /\ left f2 = Fin (l * (z1 / z2)) /\ right f2 = Fin (r * (z1 / z2))
    /\ bottom f2 = Fin (b * (z1 / z2)) /\ top f2 = Fin (t * (z1 / z2)).
Proof.
  intros H1 H2 f1 f2.
  destruct (bounds_fin vx vy z1 H1) as (Hl1 & Hr1 & Hb1 & Ht1).
  destruct (bounds_fin vx vy z2 H2) as (Hl2 & Hr2 & Hb2 & Ht2).
  do 4 eexists. split; [repeat split; eassumption |].
  subst f2. rewrite Hl2, Hr2, Hb2, Ht2.
  repeat split; f_equal; field; lra.
Qed.

Lemma frustum_scales_inversely_with_depth_witness :
  ((0 < 1)%R /\ (0 < 2)%R) /\
  exists l r b t : R,
    (left (projection (updateCameraProjection (pt 0 0 1))) = Fin l /\
     right (projection (updateCameraProjection (pt 0 0 1))) = Fin r /\
     bottom (projection (updateCameraProjection (pt 0 0 1))) = Fin b /\
     top (projection (updateCameraProjection (pt 0 0 1))) = Fin t)
    /\ left (projection (updateCameraProjection (pt 0 0 2)))
       = Fin (l * (1 / 2))
    /\ right (projection (updateCameraProjection (pt 0 0 2)))
       = Fin (r * (1 / 2))
    /\ bottom (projection (updateCameraProjection (pt 0 0 2)))
       = Fin (b * (1 / 2))
    /\ top (projection (updateCameraProjection (pt 0 0 2)))
       = Fin (t * (1 / 2)).
Proof.
  split; [split; [exact Rlt_0_1 | exact Rlt_0_2] |].
  exact (frustum_scales_inversely_with_depth 0 0 1 2 Rlt_0_1 Rlt_0_2).
Defined.

(** X3: the line from the viewer straight to the screen runs inside the
    frustum exactly when the viewer stands in front of the screen
    rectangle: left < 0 < right iff -0.14 < x < 0.14, and bottom < 0 < top
    iff -0.08 < y < 0.08; past an edge of the screen the frustum lies
    wholly to one side. *)
Theorem frustum_contains_axis_iff_viewer_faces_screen (vx vy vz : R) :
  (0 < vz)%R ->
  let f := projection (updateCameraProjection (pt vx vy vz)) in
  exists l r b t : R,
    (left f = Fin l /\ right f = Fin r /\ bottom f = Fin b /\ top f = Fin t) /\
    ((l < 0 /\ 0 < r)%R <-> (- (14 / 100) < vx < 14 / 100)%R) /\
    ((b < 0 /\ 0 < t)%R <-> (- (8 / 100) < vy < 8 / 100)%R).
Proof.
  intros Hz f. destruct (bounds_fin vx vy vz Hz) as (Hl & Hr & Hb & Ht).
  do 4 eexists. split; [repeat split; eassumption |].
  pose proof (scaled_sign (- (14 / 100) - vx) vz Hz) as [Hl0 _].
  pose proof (scaled_sign (14 / 100 - vx) vz Hz) as [_ Hr0].
  pose proof (scaled_sign (- (8 / 100) - vy) vz Hz) as [Hb0 _].
  pose proof (scaled_sign (8 / 100 - vy) vz Hz) as [_ Ht0].
  split; split; intros [Ha Hb']; split;
    first [ apply Hl0 | apply Hr0 | apply Hb0 | apply Ht0
          | apply Hl0 in Ha | apply Hr0 in Hb' | apply Hb0 in Ha
          | apply Ht0 in Hb' ]; lra.
Qed.

Lemma frustum_contains_axis_iff_viewer_faces_screen_witness :
  (0 < 1)%R /\
  exists l r b t : R,
    (left (projection (updateCameraProjection (pt 1 0 1))) = Fin l /\
     right (projection (updateCameraProjection (pt 1 0 1))) = Fin r /\
     bottom (projection (updateCameraProjection (pt 1 0 1))) = Fin b /\
     top (projection (updateCameraProjection (pt 1 0 1))) = Fin t) /\
    ((l < 0 /\ 0 < r)%R <-> (- (14 / 100) < 1 < 14 / 100)%R) /\
    ((b < 0 /\ 0 < t)%R <-> (- (8 / 100) < 0 < 8 / 100)%R).
Proof.
  split; [exact Rlt_0_1 |].
  exact (frustum_contains_axis_iff_viewer_faces_screen 1 0 1 Rlt_0_1).
Defined.

(** ** More on the position estimate *)

Section DepthRegimes.

Local Open Scope R_scope.

(* With a positive pixel distance the quotient is 0.28 * 0.063 / pixels. *)
Lemma depth_of_positive (d : R) (w : N) :
  0 < d * IZR (Z.of_N w) ->
  depth_of d w
  = Rmax (2 / 10) (Rmin 2 (1764 / 100000 / (d * IZR (Z.of_N w)))).
Proof.
  intros Hpos. unfold depth_of.
  set (p := d * IZR (Z.of_N w)) in *.
  destruct (Rlt_dec 0 (p / (63 / 1000))) as [_ | Hn].
  - do 2 f_equal. field. lra.
  - exfalso. apply Hn. apply Rdiv_lt_0_compat; lra.
Qed.

Lemma depth_of_null (d : R) (w : N) :
  d * IZR (Z.of_N w) = 0 -> depth_of d w = 2.
Proof.
  intros Hzero. unfold depth_of. rewrite Hzero.
  destruct (Rlt_dec 0 (0 / (63 / 1000))) as [Hp | _]; [lra | reflexivity].
Qed.

Lemma quotient_le (c p q : R) : 0 < p -> c <= q * p -> c / p <= q.
Proof.
  intros Hp Hc. apply Rmult_le_reg_r with p; [exact Hp |].
  unfold Rdiv. rewrite Rmult_assoc, Rinv_l by lra. lra.
Qed.

Lemma quotient_ge (c p q : R) : 0 < p -> q * p <= c -> q <= c / p.
Proof.
  intros Hp Hc. apply Rmult_le_reg_r with p; [exact Hp |].
  unfold Rdiv. rewrite Rmult_assoc, Rinv_l by lra. lra.
Qed.

End DepthRegimes.

(** X4: the depth estimate depends on the eye distance in pixels alone
    (observed distance times video width): it is the lower bound 0.2 from
    0.0882 pixels up, the upper bound 2.0 up to 0.00882 pixels, and
    0.01764 / pixels in between. *)
Theorem depth_estimate_regimes (leftEye rightEye : R * R * R)
    (width : N) (d : R) :
  ipdPixels (landmark leftEye) (landmark rightEye) = Fin d ->
  let pixels := (d * IZR (Z.of_N width))%R in
  ((882 / 10000 <= pixels)%R ->
   estimatedZ (landmark leftEye) (landmark rightEye) width = Fin (2 / 10)) /\
  ((pixels <= 882 / 100000)%R ->
   estimatedZ (landmark leftEye) (landmark rightEye) width = Fin 2) /\
  ((882 / 100000 <= pixels <= 882 / 10000)%R ->
   estimatedZ (landmark leftEye) (landmark rightEye) width
   = Fin (1764 / 100000 / pixels)).
Proof.
  rewrite ipdPixels_fin. intros Hd pixels. injection Hd as Hd.
  rewrite estimatedZ_fin, Hd. subst pixels.
  pose proof (eye_distance_nonneg leftEye rightEye) as Hdist.
  rewrite Hd in Hdist. pose proof (width_nonneg width) as Hw.
  assert (Hnonneg : (0 <= d * IZR (Z.of_N width))%R)
    by (apply Rmult_le_pos; assumption).
  split; [| split].
  - intros Hfar. rewrite depth_of_positive by lra. f_equal.
    apply Rmax_left. apply Rle_trans with (1 := Rmin_r _ _).
    apply quotient_le; lra.
  - intros Hnear. destruct Hnonneg as [Hpos | Hzero].
    + rewrite depth_of_positive by exact Hpos. f_equal.
      rewrite Rmin_left by (apply quotient_ge; lra).
      apply Rmax_right. lra.
    + rewrite depth_of_null by (symmetry; exact Hzero). reflexivity.
  - intros [Hlow Hhigh]. rewrite depth_of_positive by lra. f_equal.
    rewrite Rmin_right by (apply quotient_le; lra).
    apply Rmax_right. apply quotient_ge; lra.
Qed.

Lemma depth_estimate_regimes_witness :
  ipdPixels (landmark (0, 0, 0)%R) (landmark (1, 0, 0)%R) = Fin 1 /\
  (((882 / 10000 <= 1 * IZR (Z.of_N 1280))%R ->
    estimatedZ (landmark (0, 0, 0)%R) (landmark (1, 0, 0)%R) 1280
    = Fin (2 / 10)) /\
   ((1 * IZR (Z.of_N 1280) <= 882 / 100000)%R ->
    estimatedZ (landmark (0, 0, 0)%R) (landmark (1, 0, 0)%R) 1280 = Fin 2) /\
   ((882 / 100000 <= 1 * IZR (Z.of_N 1280) <= 882 / 10000)%R ->
    estimatedZ (landmark (0, 0, 0)%R) (landmark (1, 0, 0)%R) 1280
    = Fin (1764 / 100000 / (1 * IZR (Z.of_N 1280))))).
Proof.
  assert (Hd : ipdPixels (landmark (0, 0, 0)%R) (landmark (1, 0, 0)%R)
               = Fin 1).
  { rewrite ipdPixels_fin. unfold eye_distance. cbn [fst snd].
    replace ((1 - 0) * (1 - 0) + (0 - 0) * (0 - 0))%R with 1%R by ring.
    rewrite sqrt_1. reflexivity. }
  split; [exact Hd |].
  exact (depth_estimate_regimes (0, 0, 0)%R (1, 0, 0)%R 1280 1 Hd).
Defined.

(** X5: the raw position does not depend on which of the two eye landmarks
    is called left and which right: exchanging them gives the same raw x, y
    and depth estimate. *)
Theorem raw_position_ignores_eye_order (a b : R * R * R) (width : N) :
  rawPosition (landmark a) (landmark b) width
  = rawPosition (landmark b) (landmark a) width.
Proof.
  rewrite !rawPosition_explicit.
  assert (Hd : eye_distance a b = eye_distance b a).
  { unfold eye_distance. f_equal. ring. }
  rewrite Hd. apply pt_eq; [| | reflexivity].
  - f_equal. f_equal. f_equal. f_equal. ring.
  - f_equal. f_equal. f_equal. f_equal. ring.
Qed.

(** X6: shifting both eyes by (tx, ty) in the image leaves the depth
    estimate as it was and moves the raw position in proportion to it:
    raw x grows by tx * 0.28 * (depth / 0.5) and raw y falls by
    ty * 0.16 * (depth / 0.5); the depth being positive, a face further
    right in the image is a viewer at larger x and a face further down in
    the image a viewer at smaller y. *)
Theorem raw_position_follows_image_shift (leftEye rightEye : R * R * R)
    (tx ty : R) (width : N) :
  let shift := fun p : R * R * R =>
    (fst (fst p) + tx, snd (fst p) + ty, snd p)%R in
  exists rx ry depth : R,
    rawPosition (landmark leftEye) (landmark rightEye) width
    = pt rx ry depth /\
    (2 / 10 <= depth <= 2)%R /\
    rawPosition (landmark (shift leftEye)) (landmark (shift rightEye)) width
    = pt (rx + tx * (28 / 100) * (depth / (5 / 10)))
         (ry - ty * (16 / 100) * (depth / (5 / 10))) depth.
Proof.
  intros shift. rewrite !rawPosition_explicit.
  assert (Hd : eye_distance (shift leftEye) (shift rightEye)
               = eye_distance leftEye rightEye).
  { unfold eye_distance, shift. cbn [fst snd]. f_equal. ring. }
  rewrite Hd. do 3 eexists. split; [reflexivity |].
  split; [apply depth_of_bounds |].
  unfold shift. cbn [fst snd]. apply pt_eq; [field | field | reflexivity].
Qed.

(** ** How far the viewer position can go *)

Section Reach.

Local Open Scope R_scope.

(* The update of a tracked frame, with the raw position written out. *)
Lemma tracked_frame_explicit (pts : list (R * R * R)) (width : N) :
  (478 <= length pts)%nat ->
  exists leftEye rightEye : R * R * R,
    In leftEye pts /\ In rightEye pts /\
    forall sx sy sz : R,
      estimateViewerPosition width (Some (frame_of pts)) (pt sx sy sz)
      = Returned
          (pt (sx * (7 / 10)
               + ((fst (fst leftEye) + fst (fst rightEye)) / 2 - 5 / 10)
                 * (28 / 100)
                 * (depth_of (eye_distance leftEye rightEye) width / (5 / 10))
                 * (3 / 10))
              (sy * (7 / 10)
               + (5 / 10 - (snd (fst leftEye) + snd (fst rightEye)) / 2)
                 * (16 / 100)
                 * (depth_of (eye_distance leftEye rightEye) width / (5 / 10))
                 * (3 / 10))
              (sz * (7 / 10)
               + depth_of (eye_distance leftEye rightEye) width * (3 / 10))).
Proof.
  intros Hlen.
  destruct (estimateViewerPosition_tracked (frame_of pts))
    as (l & r & Hl & Hr & Hstep);
    [unfold frame_of; rewrite length_map; exact Hlen |].
  unfold frame_of in Hl, Hr. rewrite nth_error_map in Hl, Hr.
  destruct (nth_error pts LEFT_EYE_INDEX) as [leftEye |] eqn:El;
    [| discriminate Hl].
  destruct (nth_error pts RIGHT_EYE_INDEX) as [rightEye |] eqn:Er;
    [| discriminate Hr].
  cbn in Hl, Hr. injection Hl as <-. injection Hr as <-.
  exists leftEye, rightEye.
  split; [apply nth_error_In with (1 := El) |].
  split; [apply nth_error_In with (1 := Er) |].
  intros sx sy sz. rewrite Hstep, rawPosition_explicit.
  unfold pt. cbn [x y z]. rewrite !smooth_fin. reflexivity.
Qed.

(* The raw offsets of normalized eyes. *)
Lemma raw_offset_bound (u extent depth : R) :
  - (5 / 10) <= u <= 5 / 10 -> 0 <= extent -> 2 / 10 <= depth <= 2 ->
  - (extent * 2) <= u * extent * (depth / (5 / 10)) <= extent * 2.
Proof.
  intros Hu He Hd.
  replace (u * extent * (depth / (5 / 10))) with (u * (extent * depth * 2))
    by field.
  assert (Hk : 0 <= extent * depth * 2 <= extent * 4) by nra.
  nra.
Qed.

Lemma estimate_within_reach (width : N)
    (landmarks : option (list (R * R * R))) (p : Point jsreal) :
  match landmarks with Some pts => Forall normalized pts | None => True end ->
  within_reach p ->
  exists p',
    estimateViewerPosition width (option_map frame_of landmarks) p
    = Returned p' /\ within_reach p'.
Proof.
  intros Hnorm Hp. destruct landmarks as [pts |]; cbn [option_map].
  - destruct (Nat.lt_ge_cases (length pts) 478) as [Hshort | Hlong].
    + exists p. split; [| exact Hp].
      apply estimateViewerPosition_untracked.
      unfold frame_of. rewrite length_map. exact Hshort.
    + destruct (tracked_frame_explicit pts width Hlong)
        as (leftEye & rightEye & Hl & Hr & Hstep).
      destruct Hp as (a & b & c & -> & Ha & Hb & Hc).
      rewrite Forall_forall in Hnorm.
      destruct (Hnorm leftEye Hl) as [Hlx Hly].
      destruct (Hnorm rightEye Hr) as [Hrx Hry].
      eexists. split; [apply Hstep |].
      pose proof (depth_of_bounds (eye_distance leftEye rightEye) width)
        as Hdepth.
      pose proof (raw_offset_bound
                    ((fst (fst leftEye) + fst (fst rightEye)) / 2 - 5 / 10)
                    (28 / 100) _ ltac:(lra) ltac:(lra) Hdepth) as Hx.
      pose proof (raw_offset_bound
                    (5 / 10 - (snd (fst leftEye) + snd (fst rightEye)) / 2)
                    (16 / 100) _ ltac:(lra) ltac:(lra) Hdepth) as Hy.
      do 3 eexists. split; [reflexivity |]. repeat split; lra.
  - exists p. split; [reflexivity | exact Hp].
Qed.

Lemma run_within_reach (frames : list (N * option (list (R * R * R)))) :
  all_normalized frames ->
  forall (p : Point jsreal) (cameras : list (Camera jsreal)),
    within_reach p ->
    exists p' cameras',
      run (map detection_of frames) p cameras = Returned (p', cameras') /\
      within_reach p'.
Proof.
  unfold all_normalized.
  induction frames as [| [width landmarks] rest IH];
    intros Hnorm p cameras Hp.
  - exists p, cameras. split; [reflexivity | exact Hp].
  - inversion Hnorm as [| ? ? Hframe Hrest]; subst. cbn [snd] in Hframe.
    destruct (estimate_within_reach width landmarks p Hframe Hp)
      as (p1 & Hstep & Hp1).
    cbn [map run]. unfold animate, detection_of. cbn [fst snd].
    destruct landmarks as [pts |]; cbn [option_map] in *.
    + rewrite Hstep. apply (IH Hrest). exact Hp1.
    + apply (IH Hrest). exact Hp.
Qed.

End Reach.

(** X7: as long as the landmarks of the detected frames lie inside the
    image (normalized coordinates in [0, 1]), the viewer position never
    leaves the box |x| <= 0.56, |y| <= 0.32, 0.2 <= z <= 2.0, over any
    sequence of frames from the initial position. *)
Theorem viewer_stays_within_reach
    (frames : list (N * option (list (R * R * R)))) :
  all_normalized frames ->
  exists (a b c : R) (cameras : list (Camera jsreal)),
    run (map detection_of frames) viewerPosition0 []
    = Returned (pt a b c, cameras) /\
    (- (56 / 100) <= a <= 56 / 100)%R /\
    (- (32 / 100) <= b <= 32 / 100)%R /\
    (2 / 10 <= c <= 2)%R.
Proof.
  intros Hnorm.
  destruct (run_within_reach frames Hnorm viewerPosition0 [])
    as (p & cameras & Hrun & (a & b & c & -> & Ha & Hb & Hc)).
  - exists 0%R, 0%R, (5 / 10)%R. split; [| repeat split; lra].
    unfold viewerPosition0. rewrite !lit_fin. apply pt_eq; literals; lra.
  - exists a, b, c, cameras. repeat split; solve [exact Hrun | lra].
Qed.

Lemma viewer_stays_within_reach_witness :
  all_normalized [(1280%N, None); (1280%N, Some (repeat (1, 0, 0)%R 478))] /\
  exists (a b c : R) (cameras : list (Camera jsreal)),
    run (map detection_of
           [(1280%N, None); (1280%N, Some (repeat (1, 0, 0)%R 478))])
      viewerPosition0 []
    = Returned (pt a b c, cameras) /\
    (- (56 / 100) <= a <= 56 / 100)%R /\
    (- (32 / 100) <= b <= 32 / 100)%R /\
    (2 / 10 <= c <= 2)%R.
Proof.
  assert (Hnorm : all_normalized
                    [(1280%N, None);
                     (1280%N, Some (repeat (1, 0, 0)%R 478))]).
  { unfold all_normalized.
    apply Forall_cons; [exact I |]. apply Forall_cons; [| apply Forall_nil].
    cbn [snd]. apply Forall_forall. intros q Hq.
    apply repeat_spec in Hq. subst q.
    unfold normalized. cbn [fst snd]. lra. }
  split; [exact Hnorm |].
  exact (viewer_stays_within_reach _ Hnorm).
Defined.

(** ** Frames without a face, and NaN *)

(** X8: frames on which no face is found change nothing: over any number of
    such frames, whatever the video width and the reading of the numbers,
    the viewer position is the one before them and no camera update is
    made. *)
Theorem frames_without_face_change_nothing {T : Type} `{JSNumber T}
    (widths : list N) (p : Point T) (cameras : list (Camera T)) :
  run (map (fun width => (width, None)) widths) p cameras
  = Returned (p, cameras).
Proof.
  induction widths as [| width rest IH]; [reflexivity |].
  cbn [map run]. unfold animate. cbn [snd]. exact IH.
Qed.

Section NotANumber.

Lemma add_nan_r (a : jsreal) : (a + NaN)%js = NaN.
Proof. destruct a; reflexivity. Qed.

Lemma mul_nan_r (a : jsreal) : (a * NaN)%js = NaN.
Proof. destruct a; reflexivity. Qed.

Lemma div_nan_r (a : jsreal) : (a / NaN)%js = NaN.
Proof. destruct a; reflexivity. Qed.

Lemma sub_nan_r (a : jsreal) : (a - NaN)%js = NaN.
Proof. destruct a; reflexivity. Qed.

Lemma max_nan_r (a : jsreal) : Math_max a NaN = NaN.
Proof. destruct a; reflexivity. Qed.

Lemma min_nan_r (a : jsreal) : Math_min a NaN = NaN.
Proof. destruct a; reflexivity. Qed.

Lemma smooth_nan_previous (raw : jsreal) : smooth NaN raw = NaN.
Proof. reflexivity. Qed.

Lemma smooth_nan_raw (previous : jsreal) : smooth previous NaN = NaN.
Proof.
  unfold smooth.
  assert (Hraw : (NaN * (lit 1 - smoothing))%js = NaN) by reflexivity.
  rewrite Hraw. apply add_nan_r.
Qed.

(* A NaN observed distance makes the whole raw position NaN. *)
Lemma rawPosition_nan (leftEye rightEye : Point jsreal) (width : N) :
  ipdPixels leftEye rightEye = NaN ->
  rawPosition leftEye rightEye width = {| x := NaN; y := NaN; z := NaN |}.
Proof.
  intros Hipd.
  assert (Hz : estimatedZ leftEye rightEye width = NaN).
  { unfold estimatedZ, ipdRatio. rewrite Hipd. reflexivity. }
  assert (Hhalf : (NaN / lit 0.5)%js = NaN) by reflexivity.
  unfold rawPosition. rewrite Hz. cbv zeta.
  rewrite Hhalf, !mul_nan_r. reflexivity.
Qed.

Lemma estimate_keeps_nan (width : N) (landmarks : option (list (Point jsreal)))
    (p : Point jsreal) :
  exists p',
    estimateViewerPosition width landmarks p = Returned p' /\
    (x p = NaN -> x p' = NaN) /\ (y p = NaN -> y p' = NaN) /\
    (z p = NaN -> z p' = NaN).
Proof.
  destruct landmarks as [l |].
  - destruct (Nat.lt_ge_cases (length l) 478) as [Hshort | Hlong].
    + exists p. split; [| repeat split; intros Hp; exact Hp].
      apply estimateViewerPosition_untracked. exact Hshort.
    + destruct (estimateViewerPosition_tracked l Hlong)
        as (leftEye & rightEye & _ & _ & Hstep).
      eexists. split; [apply Hstep |].
      cbn [x y z]. repeat split; intros ->; apply smooth_nan_previous.
  - exists p. split; [reflexivity | repeat split; intros Hp; exact Hp].
Qed.

End NotANumber.

(** X9: a NaN coordinate in an eye landmark of a frame with the required
    landmarks turns the x, y and z of the viewer position into NaN, whatever
    the position was. *)
Theorem nan_landmark_spoils_position (l : list (Point jsreal))
    (leftEye rightEye : Point jsreal) (width : N) (p : Point jsreal) :
  (478 <= length l)%nat ->
  nth_error l LEFT_EYE_INDEX = Some leftEye ->
  nth_error l RIGHT_EYE_INDEX = Some rightEye ->
  x leftEye = NaN \/ y leftEye = NaN \/ x rightEye = NaN \/ y rightEye = NaN ->
  estimateViewerPosition width (Some l) p
  = Returned {| x := NaN; y := NaN; z := NaN |}.
Proof.
  intros Hlen Hl Hr Hnan.
  destruct (estimateViewerPosition_tracked l Hlen)
    as (leftEye' & rightEye' & Hl' & Hr' & Hstep).
  rewrite Hl in Hl'. rewrite Hr in Hr'.
  injection Hl' as <-. injection Hr' as <-.
  rewrite Hstep, rawPosition_nan; [cbn [x y z] |].
  - rewrite !smooth_nan_raw. reflexivity.
  - unfold ipdPixels. cbv zeta.
    destruct Hnan as [Hn | [Hn | [Hn | Hn]]]; rewrite Hn;
      destruct (x leftEye), (y leftEye), (x rightEye), (y rightEye);
      try discriminate Hn; reflexivity.
Qed.

Lemma nan_landmark_spoils_position_witness :
  ((478 <= length (face (pt 0 0 0) {| x := NaN; y := Fin 0; z := Fin 0 |}
                     (pt 1 0 0)))%nat /\
   nth_error (face (pt 0 0 0) {| x := NaN; y := Fin 0; z := Fin 0 |}
                (pt 1 0 0)) LEFT_EYE_INDEX
   = Some {| x := NaN; y := Fin 0; z := Fin 0 |} /\
   nth_error (face (pt 0 0 0) {| x := NaN; y := Fin 0; z := Fin 0 |}
                (pt 1 0 0)) RIGHT_EYE_INDEX
   = Some (pt 1 0 0) /\
   (x {| x := NaN; y := Fin 0; z := Fin 0 |} = NaN
    \/ y {| x := NaN; y := Fin 0; z := Fin 0 |} = NaN
    \/ x (pt 1 0 0) = NaN \/ y (pt 1 0 0) = NaN)) /\
  estimateViewerPosition 1280
    (Some (face (pt 0 0 0) {| x := NaN; y := Fin 0; z := Fin 0 |} (pt 1 0 0)))
    viewerPosition0
  = Returned {| x := NaN; y := NaN; z := NaN |}.
Proof.
  assert (Hlen : (478 <= length (face (pt 0 0 0)
                                   {| x := NaN; y := Fin 0; z := Fin 0 |}
                                   (pt 1 0 0)))%nat)
    by (rewrite face_length; apply le_n).
  pose proof (face_eyes (pt 0 0 0) {| x := NaN; y := Fin 0; z := Fin 0 |}
                (pt 1 0 0)) as [Hl Hr].
  assert (Hnan : x {| x := NaN; y := Fin 0; z := Fin 0 |} = NaN
                 \/ y {| x := NaN; y := Fin 0; z := Fin 0 |} = NaN
                 \/ x (pt 1 0 0) = NaN \/ y (pt 1 0 0) = NaN)
    by (left; reflexivity).
  split; [repeat split; assumption |].
  exact (nan_landmark_spoils_position _ _ _ 1280 viewerPosition0
           Hlen Hl Hr Hnan).
Defined.

(** X10: the position never recovers from NaN: a coordinate of the viewer
    position that is NaN is still NaN after any sequence of frames, whatever
    they hold. *)
Theorem nan_position_never_recovers
    (frames : list (N * option (list (Point jsreal))))
    (p : Point jsreal) (cameras : list (Camera jsreal)) :
  exists (p' : Point jsreal) (cameras' : list (Camera jsreal)),
    run frames p cameras = Returned (p', cameras') /\
    (x p = NaN -> x p' = NaN) /\ (y p = NaN -> y p' = NaN) /\
    (z p = NaN -> z p' = NaN).
Proof.
  revert p cameras.
  induction frames as [| [width landmarks] rest IH]; intros p cameras.
  - exists p, cameras. split; [reflexivity |]. repeat split; intros Hp; exact Hp.
  - cbn [run]. unfold animate. cbn [fst snd].
    destruct landmarks as [l |].
    + destruct (estimate_keeps_nan width (Some l) p)
        as (p1 & Hstep & Hx & Hy & Hz).
      rewrite Hstep.
      destruct (IH p1 (updateCameraProjection p1 :: cameras))
        as (p' & cameras' & Hrun & Hx' & Hy' & Hz').
      exists p', cameras'. split; [exact Hrun |]. repeat split; auto.
    + apply IH.
Qed.

(** ** The frame loop *)

Section LoopFacts.

Context {T : Type} `{JSNumber T} `{JSStrictEq T}.

(* estimateViewerPosition never throws: the length check covers both
   indices. *)
Lemma estimateViewerPosition_returns (width : N)
    (landmarks : option (list (Point T))) (p : Point T) :
  exists p', estimateViewerPosition width landmarks p = Returned p'.
Proof.
  destruct landmarks as [l |]; [| exists p; reflexivity].
  destruct (Nat.lt_ge_cases (length l) 478) as [Hshort | Hlong].
  - exists p. apply estimateViewerPosition_untracked. exact Hshort.
  - destruct (estimateViewerPosition_tracked l Hlong)
      as (leftEye & rightEye & _ & _ & Hstep).
    eexists. apply Hstep.
Qed.

(* What detectFaceLandmarks leaves alone. *)
Lemma detect_keeps (tick : Tick T) (app : App T) :
  let app1 := snd (detectFaceLandmarks tick app) in
  faceLandmarker app1 = faceLandmarker app /\
  isDetecting app1 = isDetecting app /\
  viewerPosition app1 = viewerPosition app /\
  camera app1 = camera app /\
  status app1 = status app /\
  console app1 = console app /\
  rendered app1 = rendered app.
Proof.
  unfold detectFaceLandmarks. cbv zeta.
  destruct (faceLandmarker app) eqn:Hloaded; [| repeat split; assumption].
  destruct (video tick) as [v |]; [| repeat split; assumption].
  destruct (negb (readyState v =? 4)%nat); [repeat split; assumption |].
  destruct (strict_equal (currentTime v) (lastVideoTime app));
    [repeat split; assumption |].
  destruct (faceLandmarks tick) as [[| first rest] |]; repeat split;
    assumption.
Qed.

(* The detector is asked only for a ready video at a new time, and then
   the time is remembered whether a face is found or not. *)
Lemma detect_cases (tick : Tick T) (app : App T) :
  (fst (detectFaceLandmarks tick app) = None /\
   lastVideoTime (snd (detectFaceLandmarks tick app)) = lastVideoTime app /\
   detections (snd (detectFaceLandmarks tick app)) = detections app)
  \/
  (exists v,
      faceLandmarker app = true /\ video tick = Some v /\
      readyState v = 4%nat /\
      strict_equal (currentTime v) (lastVideoTime app) = false /\
      lastVideoTime (snd (detectFaceLandmarks tick app)) = currentTime v /\
      detections (snd (detectFaceLandmarks tick app)) = S (detections app) /\
      fst (detectFaceLandmarks tick app)
      = match faceLandmarks tick with
        | Some (first :: _) => Some first
        | _ => None
        end).
Proof.
  unfold detectFaceLandmarks.
  destruct (faceLandmarker app); [| left; cbn; repeat split].
  destruct (video tick) as [v |]; [| left; cbn; repeat split].
  destruct (Nat.eqb_spec (readyState v) 4) as [Hready | Hnot];
    [| left; cbn; repeat split].
  cbn [negb].
  destruct (strict_equal (currentTime v) (lastVideoTime app)) eqn:Hsame;
    [left; cbn; repeat split |].
  right. exists v.
  destruct (faceLandmarks tick) as [[| first rest] |]; cbn; repeat split;
    assumption.
Qed.

(* A pass while detecting, by what the detector answered. *)
Lemma animatePass_detecting (tick : Tick T) (app : App T) :
  isDetecting app = true ->
  let app1 := snd (detectFaceLandmarks tick app) in
  match fst (detectFaceLandmarks tick app) with
  | Some l =>
      exists v newPosition,
        video tick = Some v /\
        estimateViewerPosition (videoWidth v) (Some l) (viewerPosition app)
        = Returned newPosition /\
        animatePass tick app
        = match status app with
          | None => Threw (track newPosition app1)
          | Some text =>
              Completed
                (render
                   (if negb (includes text "Tracking"%string)
                    then updateStatus
                           "✓ Tracking active - Move your head!"%string
                           (track newPosition app1)
                    else track newPosition app1))
          end
  | None =>
      animatePass tick app
      = match status app with
        | None => Threw app1
        | Some text =>
            Completed
              (render
                 (if includes text "Tracking"%string
                  then updateStatus "⚠ No face detected"%string app1
                  else app1))
        end
  end.
Proof.
  intros Hon app1.
  pose proof (detect_keeps tick app) as (_ & _ & Hpos & _ & Hstatus & _).
  fold app1 in Hpos, Hstatus.
  unfold animatePass. rewrite Hon. cbn [negb].
  destruct (detect_cases tick app) as [(Hnone & _) | (v & _ & Hv & _ & _ & _ & _ & Hd)].
  - subst app1.
    destruct (detectFaceLandmarks tick app) as [d app1]. cbn [fst snd] in *.
    subst d. rewrite Hstatus. reflexivity.
  - subst app1.
    destruct (detectFaceLandmarks tick app) as [d app1]. cbn [fst snd] in *.
    destruct d as [l |].
    + destruct (estimateViewerPosition_returns (videoWidth v) (Some l)
                  (viewerPosition app)) as [newPosition Hnew].
      exists v, newPosition. split; [exact Hv |]. split; [exact Hnew |].
      rewrite Hv, Hpos, Hnew. cbn [status track]. rewrite Hstatus.
      reflexivity.
    + rewrite Hstatus. reflexivity.
Qed.

End LoopFacts.

(** X11: the detector is asked at most once per video frame: over any
    sequence of passes that all see the same video time (a number, so equal
    to itself), whatever else changes between them, detectForVideo is
    called at most once. *)
Theorem detector_asked_once_per_video_time {T : Type} `{JSNumber T}
    `{JSStrictEq T} (t : T) (ticks : list (Tick T)) (app : App T) :
  strict_equal t t = true ->
  Forall (fun tick => forall v, video tick = Some v -> currentTime v = t)
    ticks ->
  (detections app <= detections (loop ticks app) <= S (detections app))%nat.
Proof.
  intros Hrefl Hticks.
  assert (Hpass : forall tick a,
             lastVideoTime (after (animatePass tick a))
             = lastVideoTime (snd (detectFaceLandmarks tick a)) /\
             detections (after (animatePass tick a))
             = detections (snd (detectFaceLandmarks tick a))
             \/ after (animatePass tick a) = a).
  { intros tick a. destruct (isDetecting a) eqn:Hon.
    - left. pose proof (animatePass_detecting tick a Hon) as Hshape.
      cbv zeta in Hshape.
      destruct (fst (detectFaceLandmarks tick a)) as [l |].
      + destruct Hshape as (v & newPosition & _ & _ & ->).
        destruct (status a) as [text |]; [| split; reflexivity].
        destruct (negb (includes text "Tracking"%string)); cbn [after];
          [| split; reflexivity].
        unfold updateStatus. cbn [status track].
        destruct (status (snd (detectFaceLandmarks tick a)));
          split; reflexivity.
      + rewrite Hshape.
        destruct (status a) as [text |]; [| split; reflexivity].
        destruct (includes text "Tracking"%string); cbn [after];
          [| split; reflexivity].
        unfold updateStatus.
        destruct (status (snd (detectFaceLandmarks tick a)));
          split; reflexivity.
    - right. unfold animatePass. rewrite Hon. reflexivity. }
  assert (Hseen : forall ticks' a,
             Forall (fun tick => forall v, video tick = Some v ->
                                           currentTime v = t) ticks' ->
             strict_equal t (lastVideoTime a) = true ->
             detections (loop ticks' a) = detections a).
  { induction ticks' as [| tick rest IH]; intros a Hall Hlast;
      [reflexivity |].
    inversion Hall as [| ? ? Htick Hrest]; subst. cbn [loop].
    destruct (Hpass tick a) as [[Htime Hcount] | Hsame].
    - destruct (detect_cases tick a)
        as [(_ & Htime' & Hcount') | (v & _ & Hv & _ & Hnew & _)].
      + rewrite IH; [lia | exact Hrest |].
        rewrite Htime, Htime'. exact Hlast.
      + rewrite (Htick v Hv), Hlast in Hnew. discriminate Hnew.
    - rewrite Hsame. apply IH; assumption. }
  revert app. induction Hticks as [| tick rest Htick Hrest IH]; intros app.
  - cbn [loop]. lia.
  - cbn [loop]. destruct (Hpass tick app) as [[Htime Hcount] | Hsame].
    + destruct (detect_cases tick app)
        as [(_ & Htime' & Hcount') | (v & _ & Hv & _ & _ & Htime' & Hcount' & _)].
      * specialize (IH (after (animatePass tick app))). lia.
      * rewrite Hseen; [lia | exact Hrest |].
        rewrite Htime, Htime', (Htick v Hv). exact Hrefl.
    + rewrite Hsame. apply IH.
Qed.

(** X12: on a page with a status line every pass of the running loop ends
    normally and renders once, and afterwards the status text contains
    Tracking exactly when the detector handed over landmarks in this pass;
    the text is left as it was or replaced by one of the two messages, and
    a replacement is logged. *)
Theorem status_line_follows_detection {T : Type} `{JSNumber T}
    `{JSStrictEq T} (tick : Tick T) (app : App T) (text : String.string) :
  isDetecting app = true ->
  status app = Some text ->
  exists (app' : App T) (text' : String.string),
    animatePass tick app = Completed app' /\
    status app' = Some text' /\
    rendered app' = S (rendered app) /\
    includes text' "Tracking"%string
    = match fst (detectFaceLandmarks tick app) with
      | Some _ => true
      | None => false
      end /\
    ((text' = text /\ console app' = console app) \/
     ((text' = "✓ Tracking active - Move your head!"%string
       \/ text' = "⚠ No face detected"%string) /\
      console app' = text' :: console app)).
Proof.
  intros Hon Htext.
  pose proof (animatePass_detecting tick app Hon) as Hshape.
  pose proof (detect_keeps tick app)
    as (_ & _ & _ & _ & Hstatus & Hconsole & Hrendered).
  cbv zeta in Hshape, Hstatus, Hconsole, Hrendered.
  rewrite Htext in Hshape, Hstatus.
  destruct (fst (detectFaceLandmarks tick app)) as [l |].
  - destruct Hshape as (v & newPosition & _ & _ & ->).
    destruct (includes text "Tracking"%string) eqn:Hinc; cbn [negb].
    + exists (render (track newPosition (snd (detectFaceLandmarks tick app)))),
        text.
      cbn [status render track rendered console].
      rewrite Hstatus, Hrendered, Hconsole, Hinc.
      repeat split. left. split; reflexivity.
    + eexists. exists "✓ Tracking active - Move your head!"%string.
      split; [reflexivity |]. unfold updateStatus.
      cbn [status render track rendered console]. rewrite Hstatus.
      cbn [status render track rendered console].
      rewrite Hrendered, Hconsole.
      repeat split. right. split; [left |]; reflexivity.
  - rewrite Hshape.
    destruct (includes text "Tracking"%string) eqn:Hinc.
    + eexists. exists "⚠ No face detected"%string.
      split; [reflexivity |]. unfold updateStatus. rewrite Hstatus.
      cbn [status render rendered console]. rewrite Hrendered, Hconsole.
      repeat split. right. split; [right |]; reflexivity.
    + exists (render (snd (detectFaceLandmarks tick app))), text.
      cbn [status render rendered console].
      rewrite Hstatus, Hrendered, Hconsole, Hinc.
      repeat split. left. split; reflexivity.
Qed.

(** X13: a pass that runs before the video has moved on reports that no
    face is found: with the status showing Tracking and the video time equal
    to the time of the frame processed last, the status becomes
    No face detected whatever the detector would answer, the detector is
    not asked, and the position and the camera stay as they are. *)
Theorem repeated_video_frame_reports_no_face {T : Type} `{JSNumber T}
    `{JSStrictEq T} (tick : Tick T) (v : Video T) (app : App T)
    (text : String.string) :
  isDetecting app = true ->
  status app = Some text ->
  includes text "Tracking"%string = true ->
  video tick = Some v ->
  strict_equal (currentTime v) (lastVideoTime app) = true ->
  exists app' : App T,
    animatePass tick app = Completed app' /\
    status app' = Some "⚠ No face detected"%string /\
    viewerPosition app' = viewerPosition app /\
    camera app' = camera app /\
    detections app' = detections app /\
    lastVideoTime app' = lastVideoTime app /\
    rendered app' = S (rendered app).
Proof.
  intros Hon Htext Hinc Hv Hsame.
  pose proof (animatePass_detecting tick app Hon) as Hshape.
  pose proof (detect_keeps tick app)
    as (_ & _ & Hpos & Hcam & Hstatus & _ & Hrendered).
  cbv zeta in Hshape, Hpos, Hcam, Hstatus, Hrendered.
  destruct (detect_cases tick app)
    as [(Hnone & Htime & Hcount) | (v' & _ & Hv' & _ & Hnew & _)].
  - rewrite Hnone, Htext, Hinc in Hshape. rewrite Hshape.
    eexists. split; [reflexivity |].
    unfold updateStatus. rewrite Hstatus, Htext.
    cbn [status render viewerPosition camera detections lastVideoTime
         rendered].
    rewrite Hpos, Hcam, Hcount, Htime, Hrendered. repeat split.
  - rewrite Hv in Hv'. injection Hv' as <-.
    rewrite Hsame in Hnew. discriminate Hnew.
Qed.

(** X14: the status line and the bookkeeping of the detector have no part
    in the numbers: after a pass of the running loop, ended normally or by a
    throw, the viewer position and the camera are those of the position
    estimator and the projector applied to what the detector handed over. *)
Theorem pass_writes_what_the_estimator_returns {T : Type} `{JSNumber T}
    `{JSStrictEq T} (tick : Tick T) (app : App T) :
  isDetecting app = true ->
  let width := match video tick with
               | Some v => videoWidth v
               | None => 0%N
               end in
  exists (p : Point T) (update : option (Camera T)),
    animate (width, fst (detectFaceLandmarks tick app)) (viewerPosition app)
    = Returned (p, update) /\
    viewerPosition (after (animatePass tick app)) = p /\
    camera (after (animatePass tick app))
    = match update with
      | Some c => Some c
      | None => camera app
      end.
Proof.
  intros Hon width.
  pose proof (animatePass_detecting tick app Hon) as Hshape.
  pose proof (detect_keeps tick app) as (_ & _ & Hpos & Hcam & Hstatus & _).
  cbv zeta in Hshape, Hpos, Hcam, Hstatus.
  unfold animate. cbn [fst snd].
  destruct (fst (detectFaceLandmarks tick app)) as [l |].
  - destruct Hshape as (v & newPosition & Hv & Hnew & ->).
    subst width. rewrite Hv, Hnew.
    exists newPosition, (Some (updateCameraProjection newPosition)).
    split; [reflexivity |].
    destruct (status app) as [text |]; [| split; reflexivity].
    destruct (negb (includes text "Tracking"%string)); cbn [after];
      [| split; reflexivity].
    unfold updateStatus. cbn [status track]. rewrite Hstatus.
    split; reflexivity.
  - rewrite Hshape. exists (viewerPosition app), None.
    split; [reflexivity |].
    destruct (status app) as [text |]; cbn [after];
      [| split; assumption].
    destruct (includes text "Tracking"%string);
      [| cbn [render viewerPosition camera]; split; assumption].
    unfold updateStatus. rewrite Hstatus.
    cbn [render viewerPosition camera]. split; assumption.
Qed.

(** X15: on a page without a status line the running loop never renders:
    every pass ends with a TypeError when the status text is read, after
    the position and the camera have been written (the thrown state holds
    what the estimator and the projector give for the detector's answer),
    nothing is logged, and the next passes still run. *)
Theorem page_without_status_line_never_renders {T : Type} `{JSNumber T}
    `{JSStrictEq T} (ticks : list (Tick T)) (app : App T) :
  isDetecting app = true ->
  status app = None ->
  (forall tick : Tick T,
      let width := match video tick with
                   | Some v => videoWidth v
                   | None => 0%N
                   end in
      exists (app' : App T) (p : Point T) (update : option (Camera T)),
        animatePass tick app = Threw app' /\
        animate (width, fst (detectFaceLandmarks tick app))
          (viewerPosition app) = Returned (p, update) /\
        viewerPosition app' = p /\
        camera app' = match update with
                      | Some c => Some c
                      | None => camera app
                      end /\
        rendered app' = rendered app) /\
  rendered (loop ticks app) = rendered app /\
  status (loop ticks app) = None /\
  console (loop ticks app) = console app.
Proof.
  intros Hon Hnone.
  assert (Hpass : forall tick a,
             isDetecting a = true -> status a = None ->
             exists a' p update,
               animatePass tick a = Threw a' /\
               animate (match video tick with
                        | Some v => videoWidth v
                        | None => 0%N
                        end, fst (detectFaceLandmarks tick a))
                 (viewerPosition a) = Returned (p, update) /\
               viewerPosition a' = p /\
               camera a' = match update with
                           | Some c => Some c
                           | None => camera a
                           end /\
               isDetecting a' = true /\ status a' = None /\
               rendered a' = rendered a /\ console a' = console a).
  { intros tick a Ha Hs.
    pose proof (animatePass_detecting tick a Ha) as Hshape.
    pose proof (detect_keeps tick a)
      as (_ & Hon1 & Hpos & Hcam & Hstatus & Hconsole & Hrendered).
    cbv zeta in Hshape, Hon1, Hpos, Hcam, Hstatus, Hconsole, Hrendered.
    rewrite Hs in Hshape. unfold animate. cbn [fst snd].
    destruct (fst (detectFaceLandmarks tick a)) as [l |].
    - destruct Hshape as (v & newPosition & Hv & Hnew & ->).
      rewrite Hv, Hnew.
      exists (track newPosition (snd (detectFaceLandmarks tick a))),
        newPosition, (Some (updateCameraProjection newPosition)).
      cbn [track viewerPosition camera isDetecting status rendered console].
      rewrite Hon1, Hstatus, Hrendered, Hconsole. repeat split; assumption.
    - rewrite Hshape.
      exists (snd (detectFaceLandmarks tick a)), (viewerPosition a), None.
      rewrite Hon1, Hstatus, Hrendered, Hconsole. repeat split; assumption. }
  split.
  - intros tick width.
    destruct (Hpass tick app Hon Hnone)
      as (a' & p & update & Ha' & Hanimate & Hp & Hc & _ & _ & Hr & _).
    exists a', p, update. repeat split; assumption.
  - revert app Hon Hnone.
    induction ticks as [| tick rest IH]; intros app Hon Hnone.
    + repeat split. exact Hnone.
    + cbn [loop].
      destruct (Hpass tick app Hon Hnone)
        as (a' & p & update & -> & _ & _ & _ & Hon' & Hnone' & Hrendered
            & Hconsole).
      cbn [after]. destruct (IH a' Hon' Hnone') as (Hr & Hs & Hc).
      rewrite Hr, Hs, Hc, Hrendered, Hconsole. repeat split.
Qed.

(** X16: a landmark array with fewer than 478 entries, the empty array
    included, counts as a detection: the position stays as it is, but the
    camera is rewritten from it and the status shows Tracking. *)
Theorem short_landmark_array_counts_as_detection {T : Type} `{JSNumber T}
    `{JSStrictEq T} (tick : Tick T) (app : App T) (l : list (Point T))
    (text : String.string) :
  isDetecting app = true ->
  status app = Some text ->
  fst (detectFaceLandmarks tick app) = Some l ->
  (length l < 478)%nat ->
  exists (app' : App T) (text' : String.string),
    animatePass tick app = Completed app' /\
    viewerPosition app' = viewerPosition app /\
    camera app' = Some (updateCameraProjection (viewerPosition app)) /\
    status app' = Some text' /\
    includes text' "Tracking"%string = true.
Proof.
  intros Hon Htext Hl Hshort.
  pose proof (animatePass_detecting tick app Hon) as Hshape.
  pose proof (detect_keeps tick app) as (_ & _ & _ & _ & Hstatus & _).
  cbv zeta in Hshape, Hstatus.
  rewrite Hl, Htext in Hshape. rewrite Htext in Hstatus.
  destruct Hshape as (v & newPosition & _ & Hnew & ->).
  rewrite estimateViewerPosition_untracked in Hnew by exact Hshort.
  injection Hnew as <-.
  destruct (includes text "Tracking"%string) eqn:Hinc; cbn [negb].
  - eexists. exists text. split; [reflexivity |].
    cbn [render track viewerPosition camera status].
    rewrite Hstatus. repeat split. exact Hinc.
  - eexists. exists "✓ Tracking active - Move your head!"%string.
    split; [reflexivity |]. unfold updateStatus.
    cbn [status track]. rewrite Hstatus.
    cbn [render track viewerPosition camera status]. repeat split.
Qed.

(** X17: the status the loop starts with, Starting head tracking..., has no
    capital-T Tracking in it, so as long as the detector hands over no
    landmarks the status stays as it is: No face detected is shown only
    after tracking has been active. *)
Theorem no_face_is_not_reported_before_tracking {T : Type} `{JSNumber T}
    `{JSStrictEq T} (ticks : list (Tick T)) :
  Forall (fun tick => faceLandmarks tick = None \/ faceLandmarks tick = Some [])
    ticks ->
  status (loop ticks started) = Some "Starting head tracking..."%string /\
  console (loop ticks started) = [] /\
  viewerPosition (loop ticks started) = viewerPosition0 /\
  camera (loop ticks started) = None /\
  rendered (loop ticks started) = length ticks.
Proof.
  intros Hticks.
  assert (Hgen : forall a : App T,
             isDetecting a = true ->
             status a = Some "Starting head tracking..."%string ->
             status (loop ticks a) = Some "Starting head tracking..."%string /\
             console (loop ticks a) = console a /\
             viewerPosition (loop ticks a) = viewerPosition a /\
             camera (loop ticks a) = camera a /\
             rendered (loop ticks a) = (length ticks + rendered a)%nat).
  { induction Hticks as [| tick rest Htick Hrest IH]; intros a Hon Hstatus.
    - repeat split. exact Hstatus.
    - pose proof (animatePass_detecting tick a Hon) as Hshape.
      pose proof (detect_keeps tick a)
        as (_ & Hon1 & Hpos & Hcam & Hstatus1 & Hconsole & Hrendered).
      cbv zeta in Hshape, Hon1, Hpos, Hcam, Hstatus1, Hconsole, Hrendered.
      assert (Hnone : fst (detectFaceLandmarks tick a) = None).
      { destruct (detect_cases tick a)
          as [(Hnone & _) | (v & _ & _ & _ & _ & _ & _ & ->)];
          [exact Hnone |].
        destruct Htick as [-> | ->]; reflexivity. }
      rewrite Hnone, Hstatus in Hshape.
      change (includes "Starting head tracking..."%string "Tracking"%string)
        with false in Hshape.
      cbv iota in Hshape.
      cbn [loop]. rewrite Hshape. cbn [after].
      destruct (IH (render (snd (detectFaceLandmarks tick a))))
        as (Hs & Hc & Hp & Hcm & Hr).
      + cbn [render isDetecting]. rewrite Hon1. exact Hon.
      + cbn [render status]. rewrite Hstatus1. exact Hstatus.
      + rewrite Hs, Hc, Hp, Hcm, Hr.
        cbn [render console viewerPosition camera rendered length].
        rewrite Hconsole, Hpos, Hcam, Hrendered. repeat split. lia. }
  destruct (Hgen started eq_refl eq_refl) as (Hs & Hc & Hp & Hcm & Hr).
  rewrite Hs, Hc, Hp, Hcm, Hr. cbn [started rendered console]. repeat split.
  lia.
Qed.

(** ** The frame loop at work on doubles *)

Lemma detector_asked_once_per_video_time_witness :
  (strict_equal (T := float) (lit 1) (lit 1) = true /\
   Forall (fun tick : Tick float =>
             forall v, video tick = Some v -> currentTime v = lit 1)
     [frame_tick (lit 1) 1280 (Some [scenario2]);
      frame_tick (lit 1) 1280 (Some [scenario2])]) /\
  (detections (@started float _) <=
   detections (loop [frame_tick (lit 1) 1280 (Some [scenario2]);
                     frame_tick (lit 1) 1280 (Some [scenario2])] started)
   <= S (detections (@started float _)))%nat.
Proof.
  assert (Hrefl : strict_equal (T := float) (lit 1) (lit 1) = true)
    by (vm_compute; reflexivity).
  assert (Hticks : Forall (fun tick : Tick float =>
                             forall v, video tick = Some v ->
                                       currentTime v = lit 1)
                     [frame_tick (lit 1) 1280 (Some [scenario2]);
                      frame_tick (lit 1) 1280 (Some [scenario2])]).
  { repeat apply Forall_cons; try apply Forall_nil;
      intros v Hv; injection Hv as <-; reflexivity. }
  split; [split; assumption |].
  exact (detector_asked_once_per_video_time (lit 1) _ started Hrefl Hticks).
Defined.

Lemma status_line_follows_detection_witness :
  (isDetecting (@started float _) = true /\
   status (@started float _) = Some "Starting head tracking..."%string) /\
  exists (app' : App float) (text' : String.string),
    animatePass (frame_tick (lit 1) 1280 (Some [scenario2])) started
    = Completed app' /\
    status app' = Some text' /\
    rendered app' = S (rendered (@started float _)) /\
    includes text' "Tracking"%string
    = match fst (detectFaceLandmarks
                   (frame_tick (lit 1) 1280 (Some [scenario2])) started) with
      | Some _ => true
      | None => false
      end /\
    ((text' = "Starting head tracking..."%string
      /\ console app' = console (@started float _)) \/
     ((text' = "✓ Tracking active - Move your head!"%string
       \/ text' = "⚠ No face detected"%string) /\
      console app' = text' :: console (@started float _))).
Proof.
  split; [split; reflexivity |].
  exact (status_line_follows_detection
           (frame_tick (lit 1) 1280 (Some [scenario2])) started
           "Starting head tracking..."%string eq_refl eq_refl).
Defined.

Lemma repeated_video_frame_reports_no_face_witness :
  let tick : Tick float := frame_tick (lit 1) 1280 (Some [scenario2]) in
  let app := after (animatePass tick started) in
  (isDetecting app = true /\
   status app = Some "✓ Tracking active - Move your head!"%string /\
   includes "✓ Tracking active - Move your head!"%string "Tracking"%string
   = true /\
   video tick = Some {| readyState := 4; currentTime := lit 1;
                        videoWidth := 1280 |} /\
   strict_equal (lit 1) (lastVideoTime app) = true) /\
  exists app' : App float,
    animatePass tick app = Completed app' /\
    status app' = Some "⚠ No face detected"%string /\
    viewerPosition app' = viewerPosition app /\
    camera app' = camera app /\
    detections app' = detections app /\
    lastVideoTime app' = lastVideoTime app /\
    rendered app' = S (rendered app).
Proof.
  intros tick app.
  assert (Hon : isDetecting app = true) by (vm_compute; reflexivity).
  assert (Htext : status app
                  = Some "✓ Tracking active - Move your head!"%string)
    by (vm_compute; reflexivity).
  assert (Hinc : includes "✓ Tracking active - Move your head!"%string
                   "Tracking"%string = true) by reflexivity.
  assert (Hv : video tick = Some {| readyState := 4; currentTime := lit 1;
                                    videoWidth := 1280 |}) by reflexivity.
  assert (Hsame : strict_equal
                    (currentTime {| readyState := 4; currentTime := lit 1;
                                    videoWidth := 1280 |})
                    (lastVideoTime app) = true) by (vm_compute; reflexivity).
  split; [repeat split; assumption |].
  exact (repeated_video_frame_reports_no_face tick _ app _
           Hon Htext Hinc Hv Hsame).
Defined.

Lemma pass_writes_what_the_estimator_returns_witness :
  isDetecting (@started float _) = true /\
  exists (p : Point float) (update : option (Camera float)),
    animate (1280%N,
             fst (detectFaceLandmarks
                    (frame_tick (lit 1) 1280 (Some [scenario2])) started))
      (viewerPosition started)
    = Returned (p, update) /\
    viewerPosition
      (after (animatePass (frame_tick (lit 1) 1280 (Some [scenario2]))
                started)) = p /\
    camera
      (after (animatePass (frame_tick (lit 1) 1280 (Some [scenario2]))
                started))
    = match update with
      | Some c => Some c
      | None => camera started
      end.
Proof.
  split; [reflexivity |].
  exact (pass_writes_what_the_estimator_returns
           (frame_tick (lit 1) 1280 (Some [scenario2])) started eq_refl).
Defined.

Lemma page_without_status_line_never_renders_witness :
  let app : App float :=
    {| faceLandmarker := true; lastVideoTime := lit (-1);
       isDetecting := true; viewerPosition := viewerPosition0;
       camera := None; status := None; console := [];
       detections := 0; rendered := 0 |} in
  let ticks := [frame_tick (lit 1) 1280 (Some [scenario2]);
                frame_tick (lit 2) 1280 None] in
  (isDetecting app = true /\ status app = None) /\
  (forall tick : Tick float,
      exists (app' : App float) (p : Point float)
             (update : option (Camera float)),
        animatePass tick app = Threw app' /\
        animate (match video tick with
                 | Some v => videoWidth v
                 | None => 0%N
                 end, fst (detectFaceLandmarks tick app))
          (viewerPosition app) = Returned (p, update) /\
        viewerPosition app' = p /\
        camera app' = match update with
                      | Some c => Some c
                      | None => camera app
                      end /\
        rendered app' = rendered app) /\
  rendered (loop ticks app) = rendered app /\
  status (loop ticks app) = None /\
  console (loop ticks app) = console app.
Proof.
  intros app ticks.
  split; [split; reflexivity |].
  exact (page_without_status_line_never_renders ticks app eq_refl eq_refl).
Defined.

Lemma short_landmark_array_counts_as_detection_witness :
  (isDetecting (@started float _) = true /\
   status (@started float _) = Some "Starting head tracking..."%string /\
   fst (detectFaceLandmarks (frame_tick (lit 1) 1280 (Some [[]])) started)
   = Some [] /\
   (length (@nil (Point float)) < 478)%nat) /\
  exists (app' : App float) (text' : String.string),
    animatePass (frame_tick (lit 1) 1280 (Some [[]])) started
    = Completed app' /\
    viewerPosition app' = viewerPosition started /\
    camera app' = Some (updateCameraProjection (viewerPosition started)) /\
    status app' = Some text' /\
    includes text' "Tracking"%string = true.
Proof.
  assert (Hl : fst (detectFaceLandmarks
                      (frame_tick (T := float) (lit 1) 1280 (Some [[]]))
                      started) = Some [])
    by (vm_compute; reflexivity).
  assert (Hshort : (length (@nil (Point float)) < 478)%nat)
    by (cbn [length]; lia).
  split; [repeat split; assumption |].
  exact (short_landmark_array_counts_as_detection
           (frame_tick (lit 1) 1280 (Some [[]])) started []
           "Starting head tracking..."%string eq_refl eq_refl Hl Hshort).
Defined.

Lemma no_face_is_not_reported_before_tracking_witness :
  let ticks : list (Tick float) :=
    [frame_tick (lit 1) 1280 None; frame_tick (lit 2) 1280 (Some [])] in
  Forall (fun tick => faceLandmarks tick = None \/ faceLandmarks tick = Some [])
    ticks /\
  status (loop ticks started) = Some "Starting head tracking..."%string /\
  console (loop ticks started) = [] /\
  viewerPosition (loop ticks started) = viewerPosition0 /\
  camera (loop ticks started) = None /\
  rendered (loop ticks started) = length ticks.
Proof.
  intros ticks.
  assert (Hticks : Forall (fun tick : Tick float =>
                             faceLandmarks tick = None
                             \/ faceLandmarks tick = Some []) ticks).
  { apply Forall_cons; [left; reflexivity |].
    apply Forall_cons; [right; reflexivity | apply Forall_nil]. }
  split; [exact Hticks |].
  exact (no_face_is_not_reported_before_tracking ticks Hticks).
Defined.

(** ** The depth estimate where the clamp is idle *)

Section Unclamped.

Local Open Scope R_scope.



End Unclamped.


(** ** Where the doubles part from the exact reading *)

Section Rounding.

Local Open Scope R_scope.



End Rounding.





(** C10 as stated fails: z does not always lie in [0.2, 2.0].  From the
    initial position, one frame whose left-eye landmark has x = NaN makes z
    NaN, in the exact reading and on doubles, and the camera update made
    from it has NaN bounds. *)
Lemma nan_frame_leaves_depth_range :
  (let spoiled : list (Point jsreal) :=
     face origin {| x := NaN; y := lit 0.5; z := lit 0 |} (eye_at 0.55 0.5) in
   exists (p : Point jsreal) (c : Camera jsreal),
     run [(1280%N, Some spoiled)] viewerPosition0 [] = Returned (p, [c]) /\
     z p = NaN /\
     (forall v : R, z p <> Fin v) /\
     left (projection c) = NaN /\ right (projection c) = NaN) /\
  (let spoiled : list (Point float) :=
     face origin {| x := PrimFloat.nan; y := lit 0.5; z := lit 0 |}
       (eye_at 0.55 0.5) in
   exists (p : Point float) (c : Camera float),
     run [(1280%N, Some spoiled)] viewerPosition0 [] = Returned (p, [c]) /\
     PrimFloat.is_nan (z p) = true /\
     PrimFloat.leb (lit 0.2) (z p) = false /\
     PrimFloat.is_nan (left (projection c)) = true).
Proof.
  split.
  - intros spoiled.
    destruct (estimateViewerPosition_tracked spoiled)
      as (leftEye & rightEye & Hl & Hr & Hstep).
    { unfold spoiled. rewrite face_length. apply le_n. }
    destruct (face_eyes (@origin jsreal _)
                {| x := NaN; y := lit 0.5; z := lit 0 |} (eye_at 0.55 0.5))
      as [Hl' Hr'].
    fold spoiled in Hl', Hr'. rewrite Hl' in Hl. rewrite Hr' in Hr.
    injection Hl as <-. injection Hr as <-.
    exists {| x := NaN; y := NaN; z := NaN |},
      (updateCameraProjection {| x := NaN; y := NaN; z := NaN |}).
    split.
    + cbn [run]. unfold animate. cbn [fst snd].
      rewrite Hstep, rawPosition_nan by reflexivity.
      cbn [x y z]. rewrite !smooth_nan_raw. reflexivity.
    + split; [reflexivity |]. split; [intros v Hv; discriminate Hv |].
      unfold updateCameraProjection. cbn [left right projection x y z].
      rewrite !sub_nan_r. split; reflexivity.
  - intros spoiled. do 2 eexists.
    split; [vm_compute; reflexivity |].
    repeat split; vm_compute; reflexivity.
Qed.
